(** * nsightful.core: Nsight Compute CSV rows to Markdown

    A shallow embedding of [src/nsightful/core.py] and the properties of its
    conversion pipeline.

    Conventions of the embedding.
    - A Python [str] is a Rocq [string]; one character of the model is one
      code point below 256, which is the range on which [str.strip] and
      [float] are modelled exactly.  The three marker glyphs of
      [format_rule_type] lie outside that range and are carried as their
      UTF-8 bytes; no operation of the program inspects them.
    - A Python exception is a value of [exn]; a computation that may raise
      has type [result A].
    - An insertion-ordered [dict] is an association list with unique keys
      whose order is the insertion order; the read-only row dictionaries
      produced by [csv.DictReader] are finite maps.
    - A Python [float] is an IEEE 754 binary64 value, kept as sign, integer
      significand and binary exponent, so that every operation on it is
      exact integer arithmetic. *)

From Stdlib Require Import ZArith Lia Ascii.
From stdpp Require Import base option list strings pretty gmap.

Local Open Scope Z_scope.

(** ** Exceptions *)

Inductive exn : Type :=
  | KeyError (key : string)
  | TypeError
  | AttributeError
  | ValueError
  | OverflowError.

Inductive result (A : Type) : Type :=
  | Ok (a : A)
  | Raise (e : exn).
Arguments Ok {A} a.
Arguments Raise {A} e.

#[global] Instance result_ret : MRet result := fun A a => Ok a.
#[global] Instance result_bind : MBind result := fun A B f m =>
  match m with
  | Ok a => f a
  | Raise e => Raise e
  end.

(** [try: m except ValueError: h] *)
Definition try_except_ValueError {A} (m : result A) (h : result A) : result A :=
  match m with
  | Raise ValueError => h
  | _ => m
  end.

(** ** Text primitives *)

Module Str.

(** [str.isspace] on one character (code points below 256). *)
Definition is_space (c : ascii) : bool :=
  let n := Ascii.N_of_ascii c in
  ((9 <=? n) && (n <=? 13) || (28 <=? n) && (n <=? 31)
   || (n =? 32) || (n =? 133) || (n =? 160))%N.

Fixpoint lstrip (s : string) : string :=
  match s with
  | EmptyString => EmptyString
  | String c s' => if is_space c then lstrip s' else s
  end.

Fixpoint rstrip (s : string) : string :=
  match s with
  | EmptyString => EmptyString
  | String c s' =>
      match rstrip s' with
      | EmptyString => if is_space c then EmptyString else String c EmptyString
      | r => String c r
      end
  end.

(** [s.strip()] *)
Definition strip (s : string) : string := lstrip (rstrip s).

(** [c in s] for a one-character [c] *)
Fixpoint contains (c : ascii) (s : string) : bool :=
  match s with
  | EmptyString => false
  | String d s' => Ascii.eqb c d || contains c s'
  end.

(** [s.replace(c, "")] for a one-character [c] *)
Fixpoint remove (c : ascii) (s : string) : string :=
  match s with
  | EmptyString => EmptyString
  | String d s' => if Ascii.eqb c d then remove c s' else String d (remove c s')
  end.

(** Truthiness of a string: [bool(s)] *)
Definition nonempty (s : string) : bool :=
  match s with
  | EmptyString => false
  | String _ _ => true
  end.

(** ["\n".join(lines)] *)
Fixpoint join (sep : string) (lines : list string) : string :=
  match lines with
  | [] => ""
  | [l] => l
  | l :: rest => l +:+ sep +:+ join sep rest
  end.

End Str.

(** ** Kernel base names *)

Definition is_bracket (c : ascii) : bool :=
  Ascii.eqb c "["%char || Ascii.eqb c "("%char.

(** The longest prefix matched by the character class [[^[\(]], repeated
    greedily from the start of the string. *)
Fixpoint re_not_bracket_star (s : string) : string :=
  match s with
  | EmptyString => EmptyString
  | String c s' => if is_bracket c then EmptyString else String c (re_not_bracket_star s')
  end.

(** [re.match(r"^([^[\(]+)", s)]: the first group when the pattern matches,
    which needs at least one character. *)
Definition re_match_group1 (s : string) : option string :=
  match re_not_bracket_star s with
  | EmptyString => None
  | g => Some g
  end.

Definition extract_kernel_name (full_kernel_name : string) : string :=
  match re_match_group1 full_kernel_name with
  | Some g => Str.strip g
  | None => full_kernel_name
  end.

(** ** Python floats *)

Module PyFloat.

(** An IEEE 754 binary64 value: [Finite neg m e] is [(-1)^neg * m * 2^e]
    with [0 <= m]. *)
Inductive t : Type :=
  | Finite (neg : bool) (m : Z) (e : Z)
  | Inf (neg : bool)
  | NaN.

(** *** Rounding to nearest, ties to even *)

(** The integer nearest to [p / q], ties to the even one ([0 <= p], [0 < q]). *)
Definition round_half_even (p q : Z) : Z :=
  let m := p / q in
  let r := p mod q in
  if 2 * r <? q then m
  else if q <? 2 * r then m + 1
  else if Z.even m then m else m + 1.

(** [floor (log2 (p / q))] for [0 < p] and [0 < q]. *)
Definition ilog2_ratio (p q : Z) : Z :=
  let d := Z.log2 p - Z.log2 q in
  if p * 2 ^ Z.max 0 (- d) <? q * 2 ^ Z.max 0 d then d - 1 else d.

(** The binary64 value nearest to [(-1)^neg * p / q]: 53 significant bits,
    exponent of the last place at least [-1074], overflow to infinity from
    [2^1024] on.  (In [Z] a power with a negative exponent is [0], and a
    value with [e < 0] is below [2^54].) *)
Definition round_ratio (neg : bool) (p q : Z) : t :=
  if p =? 0 then Finite neg 0 0
  else
    let e := Z.max (ilog2_ratio p q - 52) (-1074) in
    let m := round_half_even (p * 2 ^ Z.max 0 (- e)) (q * 2 ^ Z.max 0 e) in
    if 2 ^ 1024 <=? m * 2 ^ e then Inf neg else Finite neg m e.

(** The binary64 value nearest to [(-1)^neg * m * 10^e10]. *)
Definition of_decimal (neg : bool) (m e10 : Z) : t :=
  if 0 <=? e10 then round_ratio neg (m * 10 ^ e10) 1
  else round_ratio neg m (10 ^ (- e10)).

(** *** Operations *)

(** [x.is_integer()] *)
Definition is_integer (x : t) : bool :=
  match x with
  | Finite _ m e => (0 <=? e) || (m mod 2 ^ (- e) =? 0)
  | Inf _ | NaN => false
  end.

(** [int(x)]: truncation toward zero; raises on infinities and NaN. *)
Definition to_int (x : t) : result Z :=
  match x with
  | Finite neg m e =>
      let a := if 0 <=? e then m * 2 ^ e else m / 2 ^ (- e) in
      Ok (if neg then - a else a)
  | Inf _ => Raise OverflowError
  | NaN => Raise ValueError
  end.

(** [abs(x)] *)
Definition abs (x : t) : t :=
  match x with
  | Finite _ m e => Finite false m e
  | Inf _ => Inf false
  | NaN => NaN
  end.

(** [x >= n] for an [int] n: an exact comparison, false on NaN. *)
Definition ge_Z (x : t) (n : Z) : bool :=
  match x with
  | Finite neg m e =>
      let s := if neg then - m else m in
      if 0 <=? e then n <=? s * 2 ^ e else n * 2 ^ (- e) <=? s
  | Inf neg => negb neg
  | NaN => false
  end.

(** *** [float(str)] *)

Definition is_digit (c : ascii) : bool :=
  let n := N_of_ascii c in ((48 <=? n) && (n <=? 57))%N.

Definition digit_value (c : ascii) : Z := Z.of_N (N_of_ascii c) - 48.

(** Whitespace that [float] strips: the ASCII white space of [Py_ISSPACE],
    and the two other code points below 256 that it first maps to a space. *)
Definition is_space (c : ascii) : bool :=
  let n := N_of_ascii c in
  ((9 <=? n) && (n <=? 13) || (n =? 32) || (n =? 133) || (n =? 160))%N.

Fixpoint lstrip (s : string) : string :=
  match s with
  | EmptyString => EmptyString
  | String c s' => if is_space c then lstrip s' else s
  end.

Fixpoint rstrip (s : string) : string :=
  match s with
  | EmptyString => EmptyString
  | String c s' =>
      match rstrip s' with
      | EmptyString => if is_space c then EmptyString else String c EmptyString
      | r => String c r
      end
  end.

(** A maximal run of digits: its value on top of [acc], the number of
    digits added to [cnt], and the rest of the string. *)
Fixpoint scan_digits (s : string) (acc cnt : Z) : Z * Z * string :=
  match s with
  | EmptyString => (acc, cnt, s)
  | String c s' =>
      if is_digit c then scan_digits s' (10 * acc + digit_value c) (cnt + 1)
      else (acc, cnt, s)
  end.

Definition parse_sign (s : string) : bool * string :=
  match s with
  | String "-" s' => (true, s')
  | String "+" s' => (false, s')
  | _ => (false, s)
  end.

(** The exponent part [e|E [sign] digits]; it is consumed only when it has
    at least one digit. *)
Definition parse_exponent (s : string) : Z * string :=
  match s with
  | String c s1 =>
      if Ascii.eqb c "e" || Ascii.eqb c "E" then
        let '(eneg, s2) := parse_sign s1 in
        let '(ev, n, rest) := scan_digits s2 0 0 in
        if n =? 0 then (0, s) else (if eneg then - ev else ev, rest)
      else (0, s)
  | EmptyString => (0, s)
  end.

(** [_Py_dg_strtod]: [[sign] digits [. digits] [exponent]] with at least
    one digit; the correctly rounded value and the unparsed rest. *)
Definition strtod (s : string) : option (t * string) :=
  let '(neg, s1) := parse_sign s in
  let '(i, ni, s2) := scan_digits s1 0 0 in
  let '(m, nf, s3) :=
    match s2 with
    | String "." s2' => scan_digits s2' i 0
    | _ => (i, 0, s2)
    end in
  if ni + nf =? 0 then None
  else
    let '(ex, s4) := parse_exponent s3 in
    Some (of_decimal neg m (ex - nf), s4).

(** [Py_TOLOWER] *)
Definition to_lower (c : ascii) : ascii :=
  let n := N_of_ascii c in
  if ((65 <=? n) && (n <=? 90))%N then ascii_of_N (n + 32) else c.

(** [case_insensitive_match]: the rest of [s] after the lower-case [t]. *)
Fixpoint ci_prefix (t s : string) : option string :=
  match t, s with
  | EmptyString, _ => Some s
  | String a t', String b s' =>
      if Ascii.eqb (to_lower b) a then ci_prefix t' s' else None
  | String _ _, EmptyString => None
  end.

(** [_Py_parse_inf_or_nan] *)
Definition parse_inf_or_nan (s : string) : option (t * string) :=
  let '(neg, s1) := parse_sign s in
  match ci_prefix "inf" s1 with
  | Some r =>
      Some (Inf neg, match ci_prefix "inity" r with Some r' => r' | None => r end)
  | None =>
      match ci_prefix "nan" s1 with
      | Some r => Some (NaN, r)
      | None => None
      end
  end.

(** [_PyOS_ascii_strtod] *)
Definition ascii_strtod (s : string) : option (t * string) :=
  match strtod s with
  | Some r => Some r
  | None => parse_inf_or_nan s
  end.

(** [float_from_string_inner]: strip, then the whole rest must parse. *)
Definition from_string_inner (s : string) : result t :=
  match lstrip (rstrip s) with
  | EmptyString => Raise ValueError
  | s' =>
      match ascii_strtod s' with
      | Some (x, EmptyString) => Ok x
      | _ => Raise ValueError
      end
  end.

(** An underscore is allowed only between two digits. *)
Fixpoint underscores_ok (prev : ascii) (s : string) : bool :=
  match s with
  | EmptyString => negb (Ascii.eqb prev "_")
  | String c s' =>
      (if Ascii.eqb c "_" then is_digit prev
       else negb (Ascii.eqb prev "_") || is_digit c)
      && underscores_ok c s'
  end.

(** [float(s)] for a [str] s. *)
Definition of_str (s : string) : result t :=
  if Str.contains "_" s then
    if underscores_ok "000" s then from_string_inner (Str.remove "_" s)
    else Raise ValueError
  else from_string_inner s.

(** *** Formatting *)

(** Thousands separators: a comma before every group of three digits
    counted from the right. *)
Fixpoint group_digits (s : string) : string :=
  match s with
  | EmptyString => EmptyString
  | String c s' =>
      let n := String.length s' in
      String c (if (negb (n =? 0)%nat && (n mod 3 =? 0)%nat)
                then String "," (group_digits s') else group_digits s')
  end.

Definition two_digits (n : Z) : string :=
  (if n <? 10 then "0" else "") +:+ pretty n.

(** [format(x, ",.2f")] *)
Definition format_comma_2f (x : t) : string :=
  match x with
  | NaN => "nan"
  | Inf neg => if neg then "-inf" else "inf"
  | Finite neg m e =>
      let h := if 0 <=? e then m * 2 ^ e * 100
               else round_half_even (m * 100) (2 ^ (- e)) in
      (if neg then "-" else "")
      +:+ group_digits (pretty (h / 100)) +:+ "." +:+ two_digits (h mod 100)
  end.

End PyFloat.

(** [format(n, ",")] for an [int] n. *)
Definition format_int_comma (n : Z) : string :=
  (if n <? 0 then "-" else "") +:+ PyFloat.group_digits (pretty (Z.abs n)).

(** ** The numeric formatter *)

Definition format_numeric_value (value_str : string) : result string :=
  if negb (Str.nonempty value_str) then Ok ""
  else if Str.contains "," value_str then
    try_except_ValueError
      (let clean_value := Str.remove "," value_str in
       float_val ← PyFloat.of_str clean_value;
       if PyFloat.is_integer float_val && PyFloat.ge_Z (PyFloat.abs float_val) 1000 then
         n ← PyFloat.to_int float_val;
         Ok (format_int_comma n)
       else if PyFloat.ge_Z (PyFloat.abs float_val) 1000 then
         Ok (PyFloat.format_comma_2f float_val)
       else Ok clean_value)
      (Ok value_str)
  else Ok value_str.

(** ** Insertion-ordered dictionaries *)

Module Dict.

Abbreviation t V := (list (string * V)).

(** [d.get(k)] *)
Fixpoint get {V} (k : string) (d : t V) : option V :=
  match d with
  | [] => None
  | (k', v) :: d' => if String.eqb k k' then Some v else get k d'
  end.

(** [d[k] = v]: an existing key keeps its position, a new key goes last. *)
Fixpoint set {V} (k : string) (v : V) (d : t V) : t V :=
  match d with
  | [] => [(k, v)]
  | (k', v') :: d' =>
      if String.eqb k k' then (k, v) :: d' else (k', v') :: set k v d'
  end.

(** [del d[k]] *)
Fixpoint del {V} (k : string) (d : t V) : t V :=
  match d with
  | [] => []
  | (k', v') :: d' => if String.eqb k k' then d' else (k', v') :: del k d'
  end.

Definition keys {V} (d : t V) : list string := map fst d.
Definition values {V} (d : t V) : list V := map snd d.

(** [dict.fromkeys(ks)] *)
Definition fromkeys (ks : list string) : t unit :=
  fold_left (fun d k => set k tt d) ks [].

(** Truthiness of a dictionary. *)
Definition nonempty {V} (d : t V) : bool :=
  match d with
  | [] => false
  | _ :: _ => true
  end.

End Dict.

(** ** Section canonicalization and ordering *)

Definition SECTION_MAPPINGS : Dict.t string :=
  [ ("GPU Speed Of Light Throughput", "Speed Of Light");
    ("SpeedOfLight", "Speed Of Light");
    ("SpeedOfLight_RooflineChart", "Speed Of Light");
    ("Memory Workload Analysis", "Memory Workload");
    ("MemoryWorkloadAnalysis", "Memory Workload");
    ("MemoryWorkloadAnalysis_Chart", "Memory Workload");
    ("MemoryWorkloadAnalysis_Tables", "Memory Workload");
    ("Compute Workload Analysis", "Compute Workload");
    ("ComputeWorkloadAnalysis", "Compute Workload");
    ("GPU and Memory Workload Distribution", "Compute & Memory Distribution");
    ("Scheduler Statistics", "Scheduler");
    ("SchedulerStats", "Scheduler");
    ("Warp State Statistics", "Warp State");
    ("WarpStateStats", "Warp State");
    ("Instruction Statistics", "Instruction");
    ("Launch Statistics", "Launch");
    ("PM Sampling", "PM Sampling");
    ("Occupancy", "Occupancy");
    ("Source Counters", "Branching");
    ("SourceCounters", "Branching") ].

(** [list(dict.fromkeys(SECTION_MAPPINGS.values()))] *)
Definition section_order : list string :=
  Dict.keys (Dict.fromkeys (Dict.values SECTION_MAPPINGS)).

(** One turn of the first loop of [get_sorted_sections]. *)
Definition take_section {V} (acc : list (string * V) * Dict.t V) (section : string)
  : list (string * V) * Dict.t V :=
  let '(sorted_sections, remaining_sections) := acc in
  match Dict.get section remaining_sections with
  | Some data => (sorted_sections ++ [(section, data)], Dict.del section remaining_sections)
  | None => acc
  end.

Definition get_sorted_sections {V} (sections : Dict.t V) : list (string * V) :=
  let '(sorted_sections, remaining_sections) :=
    fold_left take_section section_order ([], sections) in
  sorted_sections ++ remaining_sections.

(** ** The aggregated model *)

Record Metric : Type := mkMetric {
  metric_Name : string;
  metric_Unit : string;
  metric_Value : string
}.

Record Rule : Type := mkRule {
  rule_Name : string;
  rule_Type : string;
  rule_Description : string;
  rule_Speedup_type : string;
  rule_Speedup : string
}.

(** The dictionary [{"Metrics": {}, "Rules": []}] of one section; the key
    ["Markdown"] is absent until [add_per_section_markdown] sets it. *)
Record SectionData : Type := mkSectionData {
  Metrics : Dict.t Metric;
  Rules : list Rule;
  Markdown : option string
}.

Abbreviation Sections := (Dict.t SectionData).
Abbreviation Kernels := (Dict.t Sections).

(** The value the inner [defaultdict] creates for a missing section. *)
Definition new_section : SectionData :=
  {| Metrics := []; Rules := []; Markdown := None |}.

(** [kernels[kernel_name][section_name]], as the two [defaultdict]s resolve
    it: a missing kernel or section is created, empty, on first access. *)
Definition section_at (kernels : Kernels) (kernel_name section_name : string)
  : Sections * SectionData :=
  let sections := default [] (Dict.get kernel_name kernels) in
  (sections, default new_section (Dict.get section_name sections)).

(** [kernels[kernel_name][section_name]["Metrics"][metric_name] = metric] *)
Definition set_metric (kernels : Kernels) (kernel_name section_name : string)
    (metric_name : string) (metric : Metric) : Kernels :=
  let '(sections, data) := section_at kernels kernel_name section_name in
  let data' := {| Metrics := Dict.set metric_name metric (Metrics data);
                  Rules := Rules data; Markdown := Markdown data |} in
  Dict.set kernel_name (Dict.set section_name data' sections) kernels.

(** [kernels[kernel_name][section_name]["Rules"].append(rule)] *)
Definition append_rule (kernels : Kernels) (kernel_name section_name : string)
    (rule : Rule) : Kernels :=
  let '(sections, data) := section_at kernels kernel_name section_name in
  let data' := {| Metrics := Metrics data;
                  Rules := Rules data ++ [rule]; Markdown := Markdown data |} in
  Dict.set kernel_name (Dict.set section_name data' sections) kernels.

(** ** Rows *)

(** A row of [csv.DictReader]: a dictionary from column name to the cell's
    text, or to [None] for a column that a short record does not reach. *)
Abbreviation Row := (gmap string (option string)).

(** [row[key]] *)
Definition getitem (row : Row) (key : string) : result (option string) :=
  match row !! key with
  | Some cell => Ok cell
  | None => Raise (KeyError key)
  end.

(** [cell.strip()]; [None] has no such attribute. *)
Definition cell_strip (cell : option string) : result string :=
  match cell with
  | Some s => Ok (Str.strip s)
  | None => Raise AttributeError
  end.

(** [row[key].strip()] *)
Definition getitem_strip (row : Row) (key : string) : result string :=
  cell ← getitem row key; cell_strip cell.

(** [extract_kernel_name(cell)]; [re.match] rejects [None]. *)
Definition extract_kernel_name_cell (cell : option string) : result string :=
  match cell with
  | Some s => Ok (extract_kernel_name s)
  | None => Raise TypeError
  end.

(** [SECTION_MAPPINGS.get(key, default)]; the key [None] is not in the table. *)
Definition section_mappings_get (key default : option string) : option string :=
  match key with
  | Some k =>
      match Dict.get k SECTION_MAPPINGS with
      | Some canonical => Some canonical
      | None => default
      end
  | None => default
  end.

(** ** The parser and aggregator *)

(** The body of the [for row in reader] loop of [parse_ncu_csv_data]. *)
Definition process_row (kernels : Kernels) (row : Row) : result Kernels :=
  full_kernel_name ← getitem row "Kernel Name";
  kernel_name ← extract_kernel_name_cell full_kernel_name;
  key ← getitem row "Section Name";
  dflt ← getitem row "Section Name";
  match section_mappings_get key dflt with
  | None | Some EmptyString => Ok kernels
  | Some section_name =>
      name ← getitem_strip row "Metric Name";
      kernels ←
        (if Str.nonempty name then
           metric_name ← getitem_strip row "Metric Name";
           unit ← getitem_strip row "Metric Unit";
           raw ← getitem_strip row "Metric Value";
           value ← format_numeric_value raw;
           Ok (set_metric kernels kernel_name section_name metric_name
                 (mkMetric metric_name unit value))
         else Ok kernels);
      rname ← getitem_strip row "Rule Name";
      if Str.nonempty rname then
        rule_name ← getitem_strip row "Rule Name";
        rule_type ← getitem_strip row "Rule Type";
        description ← getitem_strip row "Rule Description";
        speedup_type ← getitem_strip row "Estimated Speedup Type";
        speedup ← getitem_strip row "Estimated Speedup";
        Ok (append_rule kernels kernel_name section_name
              (mkRule rule_name rule_type description speedup_type speedup))
      else Ok kernels
  end.

Fixpoint foldM {S A} (f : S → A → result S) (s : S) (l : list A) : result S :=
  match l with
  | [] => Ok s
  | a :: l' => s' ← f s a; foldM f s' l'
  end.

Definition parse_ncu_csv_data (rows : list Row) : result Kernels :=
  foldM process_row [] rows.

(** ** The Markdown renderer *)

(** The line feed character. *)
Definition nl : string := String "010" EmptyString.

Definition format_rule_type (rule_type : string) : string :=
  if String.eqb rule_type "OPT" then "🔧 **OPTIMIZATION**"
  else if String.eqb rule_type "WRN" then "⚠️ **WARNING**"
  else if String.eqb rule_type "INF" then "ℹ️ **INFO**"
  else "**" +:+ rule_type +:+ "**".

(** [x if x else ""] *)
Definition or_empty (x : string) : string :=
  if Str.nonempty x then x else "".

Definition metric_line (metric : Metric) : string :=
  "| " +:+ metric_Name metric +:+ " | " +:+ or_empty (metric_Unit metric)
  +:+ " | " +:+ or_empty (metric_Value metric) +:+ " |".

Definition rule_lines (rule : Rule) : list string :=
  let prefix := format_rule_type (rule_Type rule) in
  let description := rule_Description rule in
  [prefix +:+ ": " +:+ description]
  ++ (if Str.nonempty (rule_Speedup rule) && Str.nonempty (rule_Speedup_type rule)
      then ["*Estimated Speedup (" +:+ rule_Speedup_type rule +:+ "): "
            +:+ rule_Speedup rule +:+ "%*"]
      else [])
  ++ [""].

(** The [markdown_lines] of one section in [add_per_section_markdown]. *)
Definition section_markdown_lines (section_name : string) (data : SectionData)
  : list string :=
  ["## " +:+ section_name +:+ nl]
  ++ (if Dict.nonempty (Metrics data) then
        ["| Metric Name | Metric Unit | Metric Value |";
         "|-------------|-------------|--------------|"]
        ++ map metric_line (Dict.values (Metrics data))
        ++ [""]
      else [])
  ++ flat_map rule_lines (Rules data).

(** [data["Markdown"] = "\n".join(markdown_lines)] *)
Definition add_section_markdown (section_name : string) (data : SectionData)
  : SectionData :=
  {| Metrics := Metrics data; Rules := Rules data;
     Markdown := Some (Str.join nl (section_markdown_lines section_name data)) |}.

Definition add_per_section_markdown (ncu_data : Kernels) : Kernels :=
  map (fun '(kernel_name, sections) =>
         (kernel_name,
          map (fun '(section_name, data) =>
                 (section_name, add_section_markdown section_name data))
              sections))
      ncu_data.

(** [section_data["Markdown"]] *)
Definition get_Markdown (data : SectionData) : result string :=
  match Markdown data with
  | Some text => Ok text
  | None => Raise (KeyError "Markdown")
  end.

Fixpoint mapM {A B} (f : A → result B) (l : list A) : result (list B) :=
  match l with
  | [] => Ok []
  | a :: l' => b ← f a; bs ← mapM f l'; Ok (b :: bs)
  end.

Definition kernel_heading (kernel_name : string) : string :=
  "# " +:+ kernel_name +:+ nl.

Definition placeholder (kernel_name : string) : string :=
  "No sections found for kernel: " +:+ kernel_name.

Definition separator : string := "---" +:+ nl.

(** What one turn of the loop over kernels appends to [markdown_lines]. *)
Definition kernel_lines (kernel_name : string) (sections : Sections)
  : result (list string) :=
  if negb (Dict.nonempty sections) then
    Ok [kernel_heading kernel_name; placeholder kernel_name]
  else
    texts ← mapM (fun '(_, section_data) => get_Markdown section_data)
                 (get_sorted_sections sections);
    Ok ([kernel_heading kernel_name] ++ texts ++ [separator]).

(** The list [markdown_lines] at the end of the loop. *)
Fixpoint render_lines (nested_markdown : Kernels) : result (list string) :=
  match nested_markdown with
  | [] => Ok []
  | (kernel_name, sections) :: rest =>
      block ← kernel_lines kernel_name sections;
      blocks ← render_lines rest;
      Ok (block ++ blocks)
  end.

(** [markdown_lines] of [convert_ncu_csv_to_flat_markdown]. *)
Definition convert_lines (rows : list Row) : result (list string) :=
  parsed ← parse_ncu_csv_data rows;
  render_lines (add_per_section_markdown parsed).

Definition convert_ncu_csv_to_flat_markdown (rows : list Row) : result string :=
  markdown_lines ← convert_lines rows;
  Ok (Str.join nl markdown_lines).

(** ** Specification vocabulary *)

(** Position of the first ['['] or ['('] of a string. *)
Fixpoint first_bracket (s : string) : option nat :=
  match s with
  | EmptyString => None
  | String c s' => if is_bracket c then Some 0%nat else S <$> first_bracket s'
  end.

(** The claim about base names, as the specification words it: truncate at
    the first bracket and trim when there is one, else leave unchanged. *)
Definition base_name_as_specified (s : string) : string :=
  match first_bracket s with
  | Some i => Str.strip (String.substring 0 i s)
  | None => s
  end.


(** The body of the [try] block of [format_numeric_value] once [float] has
    returned [float_val]. *)
Definition format_parsed (clean_value : string) (float_val : PyFloat.t) : result string :=
  if PyFloat.is_integer float_val && PyFloat.ge_Z (PyFloat.abs float_val) 1000 then
    n ← PyFloat.to_int float_val; Ok (format_int_comma n)
  else if PyFloat.ge_Z (PyFloat.abs float_val) 1000 then
    Ok (PyFloat.format_comma_2f float_val)
  else Ok clean_value.

(** The exact value of a finite float is the fraction
    [float_num x / float_den x]. *)
Definition float_num (x : PyFloat.t) : Z :=
  match x with
  | PyFloat.Finite neg m e => (if neg then - m else m) * 2 ^ Z.max 0 e
  | _ => 0
  end.

Definition float_den (x : PyFloat.t) : Z :=
  match x with
  | PyFloat.Finite _ _ e => 2 ^ Z.max 0 (- e)
  | _ => 1
  end.

(** The values [float] can return: a significand of at most 53 bits (the
    rounding may leave it at [2^53] itself) and a magnitude below [2^1024]. *)
Definition float_valid (x : PyFloat.t) : Prop :=
  match x with
  | PyFloat.Finite _ m e => 0 ≤ m ≤ 2 ^ 53 ∧ m * 2 ^ e < 2 ^ 1024
  | _ => True
  end.

(** [h] is the integer nearest to [p / q], the even one on a tie. *)
Definition nearest_ties_even (p q h : Z) : Prop :=
  2 * Z.abs (h * q - p) ≤ q ∧ (2 * Z.abs (h * q - p) = q → Z.even h = true).

(** Thousands separators, inserted from the right: [r] holds the digits
    with the least significant one first. *)
Fixpoint commas_from_right (r : list ascii) : list ascii :=
  match r with
  | a :: b :: c :: ((_ :: _) as rest) =>
      a :: b :: c :: ","%char :: commas_from_right rest
  | _ => r
  end.

Definition with_thousands_separators (digits : string) : string :=
  String.string_of_list_ascii
    (rev (commas_from_right (rev (String.list_ascii_of_string digits)))).

(** The character of one decimal digit. *)
Definition digit_char (d : Z) : ascii := ascii_of_N (48 + Z.to_N d).

Definition minus_if (neg : bool) : string := if neg then "-" else "".

(** [ratio_below p q a]: the fraction [p / q] is below [2^a], for an
    exponent [a] of either sign. *)
Definition ratio_below (p q a : Z) : Prop :=
  p * 2 ^ Z.max 0 (- a) < q * 2 ^ Z.max 0 a.

(** Every character of [s] satisfies [P]. *)
Fixpoint all_chars (P : ascii → bool) (s : string) : bool :=
  match s with
  | EmptyString => true
  | String c s' => P c && all_chars P s'
  end.

(** The number a string of decimal digits denotes, on top of [acc]. *)
Fixpoint decimal_value (acc : Z) (s : string) : Z :=
  match s with
  | EmptyString => acc
  | String c s' => decimal_value (10 * acc + PyFloat.digit_value c) s'
  end.

(** The characters of a printed integer: a digit or the minus sign. *)
Definition is_int_char (c : ascii) : bool :=
  PyFloat.is_digit c || Ascii.eqb c "-".

(** ** Rows as entries *)

(** What one row contributes to the model: the kernel and section it falls
    under, the metric it carries, if any, and the rule it carries, if any. *)
Record Entry : Type := mkEntry {
  entry_kernel : string;
  entry_section : string;
  entry_metric : option Metric;
  entry_rule : option Rule
}.

(** The reads of [process_row], in its order and with its errors, apart from
    the model: [None] for a row that is skipped. *)
Definition read_row (row : Row) : result (option Entry) :=
  full_kernel_name ← getitem row "Kernel Name";
  kernel_name ← extract_kernel_name_cell full_kernel_name;
  key ← getitem row "Section Name";
  dflt ← getitem row "Section Name";
  match section_mappings_get key dflt with
  | None | Some EmptyString => Ok None
  | Some section_name =>
      name ← getitem_strip row "Metric Name";
      metric ←
        (if Str.nonempty name then
           metric_name ← getitem_strip row "Metric Name";
           unit ← getitem_strip row "Metric Unit";
           raw ← getitem_strip row "Metric Value";
           value ← format_numeric_value raw;
           Ok (Some (mkMetric metric_name unit value))
         else Ok None);
      rname ← getitem_strip row "Rule Name";
      rule ←
        (if Str.nonempty rname then
           rule_name ← getitem_strip row "Rule Name";
           rule_type ← getitem_strip row "Rule Type";
           description ← getitem_strip row "Rule Description";
           speedup_type ← getitem_strip row "Estimated Speedup Type";
           speedup ← getitem_strip row "Estimated Speedup";
           Ok (Some (mkRule rule_name rule_type description speedup_type speedup))
         else Ok None);
      Ok (Some (mkEntry kernel_name section_name metric rule))
  end.

(** The writes of [process_row]: the metric is stored under its name, then
    the rule is appended. *)
Definition apply_entry (kernels : Kernels) (entry : option Entry) : Kernels :=
  match entry with
  | None => kernels
  | Some e =>
      let kernels1 :=
        match entry_metric e with
        | Some m =>
            set_metric kernels (entry_kernel e) (entry_section e) (metric_Name m) m
        | None => kernels
        end in
      match entry_rule e with
      | Some r => append_rule kernels1 (entry_kernel e) (entry_section e) r
      | None => kernels1
      end
  end.

(** [kernels[kernel_name]] and [kernels[kernel_name][section_name]] read
    without creating anything: empty when absent. *)
Definition sections_of (kernels : Kernels) (kernel_name : string) : Sections :=
  default [] (Dict.get kernel_name kernels).

Definition data_of (kernels : Kernels) (kernel_name section_name : string)
  : SectionData :=
  default new_section (Dict.get section_name (sections_of kernels kernel_name)).

(** ** Vocabulary for the aggregated model *)

(** The distinct elements of a list, each at its first occurrence. *)
Fixpoint first_occurrences (l : list string) : list string :=
  match l with
  | [] => []
  | x :: l' => x :: filter (λ y, y ≠ x) (first_occurrences l')
  end.

(** The last metric of a list that bears a given name. *)
Definition last_named (name : string) (ms : list Metric) : option Metric :=
  last (filter (λ m, metric_Name m = name) ms).

(** An entry writes to the model when it carries a metric or a rule. *)
Definition writes (e : Entry) : bool :=
  bool_decide (is_Some (entry_metric e) ∨ is_Some (entry_rule e)).

(** The entries that write, the metrics and the rules of the entries that
    fall under a kernel and a section, in row order. *)
Definition written (entries : list (option Entry)) : list Entry :=
  filter (λ e, writes e = true) (omap id entries).

Definition entries_at (kernel_name section_name : string)
    (entries : list (option Entry)) : list Entry :=
  filter (λ e, entry_kernel e = kernel_name ∧ entry_section e = section_name)
         (omap id entries).

Definition metrics_at (kernel_name section_name : string)
    (entries : list (option Entry)) : list Metric :=
  omap entry_metric (entries_at kernel_name section_name entries).

Definition rules_at (kernel_name section_name : string)
    (entries : list (option Entry)) : list Rule :=
  omap entry_rule (entries_at kernel_name section_name entries).

(** [kernels[kernel_name][section_name]] replaced by [f] of itself, the way
    both writes of [process_row] go through the two [defaultdict]s. *)
Definition update_section (kernels : Kernels) (kernel_name section_name : string)
    (f : SectionData → SectionData) : Kernels :=
  let '(sections, data) := section_at kernels kernel_name section_name in
  Dict.set kernel_name (Dict.set section_name (f data) sections) kernels.

Definition with_metric (metric_name : string) (metric : Metric) (data : SectionData)
  : SectionData :=
  {| Metrics := Dict.set metric_name metric (Metrics data);
     Rules := Rules data; Markdown := Markdown data |}.

Definition with_rule (rule : Rule) (data : SectionData) : SectionData :=
  {| Metrics := Metrics data; Rules := Rules data ++ [rule];
     Markdown := Markdown data |}.

(** Well-formedness of the aggregated model: a section has a name, holds a
    metric or a rule, keeps each metric under the metric's own name, once,
    and has no rendered text yet; a kernel has at least one section and no
    two of the same name; no two kernels have the same name. *)
Definition section_ok (sd : string * SectionData) : Prop :=
  sd.1 ≠ ""
  ∧ (Metrics sd.2 ≠ [] ∨ Rules sd.2 ≠ [])
  ∧ NoDup (Dict.keys (Metrics sd.2))
  ∧ Forall (λ nm : string * Metric, metric_Name nm.2 = nm.1) (Metrics sd.2)
  ∧ Markdown sd.2 = None.

Definition kernel_ok (ks : string * Sections) : Prop :=
  ks.2 ≠ [] ∧ NoDup (Dict.keys ks.2) ∧ Forall section_ok ks.2.

Definition model_ok (kernels : Kernels) : Prop :=
  NoDup (Dict.keys kernels) ∧ Forall kernel_ok kernels.

(** Appending a key to an ordered list of distinct keys. *)
Definition add_key (ks : list string) (k : string) : list string :=
  if decide (k ∈ ks) then ks else ks ++ [k].

(** [d[m["Name"]] = m] *)
Definition put_metric (d : Dict.t Metric) (m : Metric) : Dict.t Metric :=
  Dict.set (metric_Name m) m d.

(** ** Vocabulary for rows *)

(** The ten columns the parser may read. *)
Definition COLUMNS : list string :=
  [ "Kernel Name"; "Section Name"; "Metric Name"; "Metric Unit"; "Metric Value";
    "Rule Name"; "Rule Type"; "Rule Description"; "Estimated Speedup Type";
    "Estimated Speedup" ].

(** The cell of a column is text. *)
Definition has_text (row : Row) (column : string) : Prop :=
  ∃ s, row !! column = Some (Some s).

(** A row with text in each of the ten columns. *)
Definition complete_row (row : Row) : Prop :=
  Forall (has_text row) COLUMNS.

(** A row built from the ten cells, in the order of [COLUMNS]. *)
Definition make_row (k s mn mu mv rn rt rd st sp : string) : Row :=
  list_to_map
    [ ("Kernel Name", Some k); ("Section Name", Some s); ("Metric Name", Some mn);
      ("Metric Unit", Some mu); ("Metric Value", Some mv); ("Rule Name", Some rn);
      ("Rule Type", Some rt); ("Rule Description", Some rd);
      ("Estimated Speedup Type", Some st); ("Estimated Speedup", Some sp) ].

(** A small report: two kernels, a repeated metric, a section outside the
    table, a rule, a row without a section, and sections met in an order
    that is not the canonical one. *)
Definition sample_rows : list Row :=
  [ make_row "scale(float*, int)" "Occupancy" "Registers" "" "32" "" "" "" "" "";
    make_row "scale(float*, int)" "Custom" "Waves" "" "1,5" "" "" "" "" "";
    make_row "scale(float*, int)" "SpeedOfLight" "Duration" "ns" "12,345" "SOL"
             "OPT" "Use more threads" "global" "12.5";
    make_row "scale(float*, int)" "Occupancy" "Registers" "" "64" "" "" "" "" "";
    make_row "scale(float*, int)" "" "Orphan" "" "1" "" "" "" "" "";
    make_row "reduce [clone]" "Launch Statistics" "Grid Size" "" "1,024" "" ""
             "" "" "";
    make_row "reduce(int*)" "SpeedOfLight" "Duration" "ns" "7" "" "" "" "" "" ].

(** The model of the small report. *)
Definition sample_model : Kernels :=
  [ ("scale",
     [ ("Occupancy",
        {| Metrics := [ ("Registers", mkMetric "Registers" "" "64") ];
           Rules := []; Markdown := None |});
       ("Custom",
        {| Metrics := [ ("Waves", mkMetric "Waves" "" "15") ];
           Rules := []; Markdown := None |});
       ("Speed Of Light",
        {| Metrics := [ ("Duration", mkMetric "Duration" "ns" "12,345") ];
           Rules := [ mkRule "SOL" "OPT" "Use more threads" "global" "12.5" ];
           Markdown := None |}) ]);
    ("reduce",
     [ ("Launch",
        {| Metrics := [ ("Grid Size", mkMetric "Grid Size" "" "1,024") ];
           Rules := []; Markdown := None |});
       ("Speed Of Light",
        {| Metrics := [ ("Duration", mkMetric "Duration" "ns" "7") ];
           Rules := []; Markdown := None |}) ]) ].

(** A row cut short after the kernel name: it has no other column. *)
Definition short_row : Row := {[ "Kernel Name" := Some "scale(float*, int)" ]}.

(** The text of a cell, empty when the column is absent or the cell [None]. *)
Definition text_of (row : Row) (column : string) : string :=
  match row !! column with
  | Some (Some s) => s
  | _ => ""
  end.

(** The canonical section name of a row that has a section cell. *)
Definition canonical_section (row : Row) : option string :=
  cell ← row !! "Section Name"; section_mappings_get cell cell.

(** The columns [process_row] subscripts for a row, in the order it does:
    the two names always; the metric and rule names when the row has a
    section; the other metric columns when the metric name is not blank; the
    other rule columns when the rule name is not blank. *)
Definition columns_needed (row : Row) : list string :=
  [ "Kernel Name"; "Section Name" ]
  ++ match canonical_section row with
     | None | Some EmptyString => []
     | Some _ =>
         [ "Metric Name" ]
         ++ (if Str.nonempty (Str.strip (text_of row "Metric Name"))
             then [ "Metric Unit"; "Metric Value" ] else [])
         ++ [ "Rule Name" ]
         ++ (if Str.nonempty (Str.strip (text_of row "Rule Name"))
             then [ "Rule Type"; "Rule Description"; "Estimated Speedup Type";
                    "Estimated Speedup" ]
             else [])
     end.

(** The first of a list of columns that a row does not have. *)
Fixpoint first_missing (row : Row) (columns : list string) : option string :=
  match columns with
  | [] => None
  | c :: columns' =>
      match row !! c with
      | None => Some c
      | Some _ => first_missing row columns'
      end
  end.

(** ** Vocabulary for the rendered document *)

(** The text [add_per_section_markdown] attaches to a section. *)
Definition section_text (sd : string * SectionData) : string :=
  Str.join nl (section_markdown_lines sd.1 sd.2).

(** The lines one kernel of the model contributes to the document: its
    heading, the text of its sections in sorted order, and the separator. *)
Definition kernel_block (ks : string * Sections) : list string :=
  [kernel_heading ks.1] ++ map section_text (get_sorted_sections ks.2)
  ++ [separator].

(** The first character of a string. *)
Definition first_char (s : string) : option ascii :=
  match s with
  | EmptyString => None
  | String c _ => Some c
  end.

(** A dictionary with each value replaced by a function of its key and
    itself; the keys and their order stay. *)
Definition map_values {V W} (g : string → V → W) (d : Dict.t V) : Dict.t W :=
  map (λ kv, (kv.1, g kv.1 kv.2)) d.
(** * Properties *)

(** ** Kernel base names *)

Lemma re_not_bracket_star_prefix s :
  re_not_bracket_star s =
    match first_bracket s with
    | Some i => String.substring 0 i s
    | None => s
    end.
Proof.
  induction s as [|c s IH]; simpl; [done|].
  destruct (is_bracket c); simpl; [done|].
  rewrite IH. destruct (first_bracket s) as [i|]; simpl; done.
Qed.

Lemma first_bracket_zero s :
  first_bracket s = Some 0%nat → re_not_bracket_star s = EmptyString.
Proof.
  destruct s as [|c s]; simpl; [done|].
  destruct (is_bracket c); [done|].
  destruct (first_bracket s); simpl; congruence.
Qed.

Lemma re_not_bracket_star_nonempty s i :
  first_bracket s = Some (S i) → re_not_bracket_star s ≠ EmptyString.
Proof.
  destruct s as [|c s]; simpl; [done|].
  destruct (is_bracket c); [done|]. done.
Qed.

(** C2, as the code has it: the pattern needs at least one character before
    the first bracket.  With a bracket at a later position the base name is
    the trimmed text before it; with a bracket in first position the name is
    returned unchanged; without any bracket the whole name is trimmed. *)
Theorem extract_kernel_name_cases (s : string) :
  extract_kernel_name s =
    match first_bracket s with
    | Some 0%nat => s
    | Some i => Str.strip (String.substring 0 i s)
    | None => Str.strip s
    end.
Proof.
  unfold extract_kernel_name, re_match_group1.
  destruct (first_bracket s) as [[|i]|] eqn:Hb.
  - by rewrite (first_bracket_zero _ Hb).
  - pose proof (re_not_bracket_star_nonempty _ _ Hb) as Hne.
    rewrite re_not_bracket_star_prefix, Hb in *.
    by destruct (String.substring 0 (S i) s).
  - rewrite re_not_bracket_star_prefix, Hb. by destruct s.
Qed.

(** C2 as stated fails: a name that begins with a bracket is returned whole,
    not truncated to the empty text before the bracket. *)
Lemma extract_kernel_name_not_as_specified :
  ¬ (∀ s, extract_kernel_name s = base_name_as_specified s).
Proof.
  intros H. specialize (H "(anonymous namespace)::scale(float*)").
  vm_compute in H. discriminate H.
Qed.

(** The other half of C2 fails as well: a name without brackets is trimmed. *)
Example extract_kernel_name_trims_plain_name :
  extract_kernel_name " scale " = "scale"
  ∧ base_name_as_specified " scale " = " scale ".
Proof. split; reflexivity. Qed.

Example extract_kernel_name_template :
  extract_kernel_name "matmulKernel<float>(float*, int)" = "matmulKernel<float>".
Proof. reflexivity. Qed.

(** ** The numeric formatter never raises *)

Lemma from_string_inner_raises s e :
  PyFloat.from_string_inner s = Raise e → e = ValueError.
Proof.
  unfold PyFloat.from_string_inner. intros H.
  repeat case_match; congruence.
Qed.

Lemma of_str_raises s e : PyFloat.of_str s = Raise e → e = ValueError.
Proof.
  unfold PyFloat.of_str. intros H.
  repeat case_match; eauto using from_string_inner_raises; congruence.
Qed.

(** [int(x)] is only reached under [x.is_integer()], where it succeeds. *)
Lemma to_int_of_integer x :
  PyFloat.is_integer x = true → ∃ n, PyFloat.to_int x = Ok n.
Proof. destruct x; simpl; [eauto|done..]. Qed.

Lemma format_numeric_value_unfold s :
  format_numeric_value s =
    if negb (Str.nonempty s) then Ok ""
    else if Str.contains "," s then
      match PyFloat.of_str (Str.remove "," s) with
      | Ok x => try_except_ValueError (format_parsed (Str.remove "," s) x) (Ok s)
      | Raise _ => Ok s
      end
    else Ok s.
Proof.
  unfold format_numeric_value, format_parsed.
  destruct (negb (Str.nonempty s)); [done|].
  destruct (Str.contains "," s); [|done].
  destruct (PyFloat.of_str (Str.remove "," s)) as [x|e] eqn:Hf; [done|].
  apply of_str_raises in Hf as ->. done.
Qed.

Lemma format_parsed_ok clean x : ∃ out, format_parsed clean x = Ok out.
Proof.
  unfold format_parsed.
  destruct (PyFloat.is_integer x) eqn:Hi; simpl.
  - destruct (PyFloat.ge_Z (PyFloat.abs x) 1000); [|eauto].
    destruct (to_int_of_integer x Hi) as [n ->]. simpl. eauto.
  - destruct (PyFloat.ge_Z (PyFloat.abs x) 1000); eauto.
Qed.

(** C9: the numeric formatter returns a string on every input, and when
    [float] rejects the comma-stripped text the result is the input itself. *)
Theorem format_numeric_value_total (s : string) :
  ∃ out, format_numeric_value s = Ok out
         ∧ (∀ e, PyFloat.of_str (Str.remove "," s) = Raise e → out = s).
Proof.
  rewrite format_numeric_value_unfold.
  destruct s as [|c s]; [by eexists|]. cbn [Str.nonempty negb].
  destruct (Str.contains "," (String c s)); [|by eexists].
  destruct (PyFloat.of_str _) as [x|e]; [|by eexists].
  destruct (format_parsed_ok (Str.remove "," (String c s)) x) as [out ->].
  eexists; split; [done|]. intros e He. discriminate He.
Qed.

Lemma format_numeric_value_total_witness :
  PyFloat.of_str (Str.remove "," "n/a, idle") = Raise ValueError
  ∧ format_numeric_value "n/a, idle" = Ok "n/a, idle".
Proof.
  split; [reflexivity|].
  destruct (format_numeric_value_total "n/a, idle") as [out [Hout Hsame]].
  rewrite Hout. f_equal. apply (Hsame ValueError). reflexivity.
Defined.

(** ** Thousands separators *)

Lemma commas_from_right_snoc (r : list ascii) (c : ascii) :
  commas_from_right (r ++ [c]) =
  commas_from_right r
  ++ (if negb (length r =? 0)%nat && (length r mod 3 =? 0)%nat
      then [","%char; c] else [c]).
Proof.
  remember (length r) as n eqn:Hn.
  revert r Hn. induction (lt_wf n) as [n _ IH]. intros r Hn.
  destruct r as [|a [|b [|c' [|d r']]]]; subst n; try reflexivity.
  change (commas_from_right ((a :: b :: c' :: d :: r') ++ [c]))
    with (a :: b :: c' :: ","%char :: commas_from_right ((d :: r') ++ [c])).
  change (commas_from_right (a :: b :: c' :: d :: r'))
    with (a :: b :: c' :: ","%char :: commas_from_right (d :: r')).
  rewrite (IH (length (d :: r')) ltac:(simpl; lia) (d :: r') eq_refl).
  replace (length (a :: b :: c' :: d :: r')) with (length (d :: r') + 1 * 3)%nat
    by (simpl; lia).
  rewrite Nat.Div0.mod_add.
  assert (Hz : ∀ k, (S k =? 0)%nat = false) by done.
  cbn [length Nat.add]. rewrite !Hz. reflexivity.
Qed.

Lemma string_of_list_ascii_app l1 l2 :
  String.string_of_list_ascii (l1 ++ l2)
  = String.string_of_list_ascii l1 +:+ String.string_of_list_ascii l2.
Proof. induction l1 as [|a l1 IH]; simpl; [done|]. by rewrite IH. Qed.

Lemma length_list_ascii_of_string s :
  length (String.list_ascii_of_string s) = String.length s.
Proof. induction s as [|c s IH]; simpl; [done|]. by rewrite IH. Qed.

(** The formatter's grouping is the insertion of a comma after every third
    digit counted from the right. *)
Lemma group_digits_from_right s :
  PyFloat.group_digits s = with_thousands_separators s.
Proof.
  unfold with_thousands_separators.
  induction s as [|c s IH]; [done|].
  cbn [PyFloat.group_digits String.list_ascii_of_string rev].
  change (rev (c :: String.list_ascii_of_string s))
    with (rev (String.list_ascii_of_string s) ++ [c]).
  rewrite commas_from_right_snoc, length_rev, length_list_ascii_of_string.
  rewrite rev_app_distr, string_of_list_ascii_app, IH.
  by destruct (negb (String.length s =? 0)%nat && (String.length s mod 3 =? 0)%nat).
Qed.

Lemma remove_comma_group_digits s :
  Str.contains "," s = false → Str.remove "," (PyFloat.group_digits s) = s.
Proof.
  induction s as [|c s IH]; [done|]. cbn [Str.contains]. intros Hc.
  apply orb_false_iff in Hc as [Hc Hs].
  cbn [PyFloat.group_digits].
  destruct (negb _ && _); cbn [Str.remove]; rewrite Hc; cbn; rewrite ?IH; done.
Qed.

(** ** Rounding to binary64 *)

Lemma pow2_pos a : 0 < 2 ^ Z.max 0 a.
Proof. apply Z.pow_pos_nonneg; lia. Qed.

Lemma ratio_below_shift p q a c :
  0 ≤ c →
  p * 2 ^ Z.max 0 (- a) < q * 2 ^ Z.max 0 a * 2 ^ c ↔ ratio_below p q (a + c).
Proof.
  intros Hc. unfold ratio_below.
  destruct (Z.le_gt_cases 0 a) as [Ha|Ha].
  - rewrite (Z.max_l 0 (- a)), (Z.max_r 0 a), (Z.max_l 0 (- (a + c))),
      (Z.max_r 0 (a + c)) by lia.
    rewrite Z.pow_add_r by lia. lia.
  - destruct (Z.le_gt_cases 0 (a + c)) as [Hac|Hac].
    + rewrite (Z.max_r 0 (- a)), (Z.max_l 0 a), (Z.max_l 0 (- (a + c))),
        (Z.max_r 0 (a + c)) by lia.
      replace c with ((a + c) + - a) at 1 by lia.
      rewrite Z.pow_add_r by lia.
      assert (0 < 2 ^ (- a)) by (apply Z.pow_pos_nonneg; lia).
      rewrite !Z.pow_0_r. split; intros; nia.
    + rewrite (Z.max_r 0 (- a)), (Z.max_l 0 a), (Z.max_r 0 (- (a + c))),
        (Z.max_l 0 (a + c)) by lia.
      replace (- a) with (- (a + c) + c) at 1 by lia.
      rewrite Z.pow_add_r by lia.
      assert (0 < 2 ^ c) by (apply Z.pow_pos_nonneg; lia).
      rewrite !Z.pow_0_r. split; intros; nia.
Qed.

Lemma ratio_below_mono p q a b :
  0 < q → a ≤ b → ratio_below p q a → ratio_below p q b.
Proof.
  intros Hq Hab Ha. replace b with (a + (b - a)) by lia.
  apply ratio_below_shift; [lia|]. unfold ratio_below in Ha.
  assert (1 ≤ 2 ^ (b - a)) by (apply Z.pow_le_mono_r with (b := 0) (c := b - a) (a := 2); lia).
  pose proof (pow2_pos a). nia.
Qed.

Lemma ilog2_ratio_upper p q :
  0 < p → 0 < q → ratio_below p q (PyFloat.ilog2_ratio p q + 1).
Proof.
  intros Hp Hq. unfold PyFloat.ilog2_ratio.
  set (d := Z.log2 p - Z.log2 q).
  destruct (Z.ltb_spec (p * 2 ^ Z.max 0 (- d)) (q * 2 ^ Z.max 0 d)) as [Hlt|Hge].
  - replace (d - 1 + 1) with d by lia. exact Hlt.
  - destruct (Z.log2_spec p Hp) as [_ Hpu].
    destruct (Z.log2_spec q Hq) as [Hql _].
    pose proof (Z.log2_nonneg p). pose proof (Z.log2_nonneg q).
    unfold ratio_below.
    destruct (Z.le_gt_cases 0 (d + 1)) as [Hd|Hd].
    + rewrite (Z.max_l 0 (- (d + 1))), (Z.max_r 0 (d + 1)) by lia.
      rewrite Z.pow_0_r.
      assert (2 ^ Z.succ (Z.log2 p) = 2 ^ Z.log2 q * 2 ^ (d + 1)) as Heq.
      { rewrite <- Z.pow_add_r by lia. f_equal. lia. }
      assert (0 < 2 ^ (d + 1)) by (apply Z.pow_pos_nonneg; lia).
      nia.
    + rewrite (Z.max_r 0 (- (d + 1))), (Z.max_l 0 (d + 1)) by lia.
      rewrite Z.pow_0_r.
      assert (2 ^ Z.log2 q = 2 ^ Z.succ (Z.log2 p) * 2 ^ (- (d + 1))) as Heq.
      { rewrite <- Z.pow_add_r by lia. f_equal. lia. }
      assert (0 < 2 ^ (- (d + 1))) by (apply Z.pow_pos_nonneg; lia).
      nia.
Qed.

Lemma round_half_even_spec p q :
  0 ≤ p → 0 < q → nearest_ties_even p q (PyFloat.round_half_even p q).
Proof.
  intros Hp Hq. unfold PyFloat.round_half_even, nearest_ties_even.
  pose proof (Z.div_mod p q ltac:(lia)) as Hdm.
  pose proof (Z.mod_pos_bound p q Hq) as Hr.
  set (m := p / q) in *. set (r := p mod q) in *.
  destruct (Z.ltb_spec (2 * r) q) as [H1|H1].
  - split; [lia|]. intros Heq. lia.
  - destruct (Z.ltb_spec q (2 * r)) as [H2|H2].
    + split; [lia|]. intros Heq. lia.
    + destruct (Z.even m) eqn:He.
      * split; [lia|done].
      * split; [lia|]. intros _. rewrite Z.even_add, He. done.
Qed.

Lemma round_half_even_bounds p q :
  0 ≤ p → 0 < q → p / q ≤ PyFloat.round_half_even p q ≤ p / q + 1.
Proof.
  intros Hp Hq. unfold PyFloat.round_half_even.
  repeat case_match; lia.
Qed.

Lemma round_half_even_exact p q :
  0 < q → p mod q = 0 → PyFloat.round_half_even p q = p / q.
Proof.
  intros Hq Hr. unfold PyFloat.round_half_even. rewrite Hr.
  destruct (Z.ltb_spec (2 * 0) q); [done|lia].
Qed.

(** Every value the rounding returns is a binary64 value. *)
Lemma round_ratio_valid neg p q :
  0 ≤ p → 0 < q → float_valid (PyFloat.round_ratio neg p q).
Proof.
  intros Hp Hq. unfold PyFloat.round_ratio.
  destruct (Z.eqb_spec p 0) as [->|Hp0].
  { simpl. split; [|done]. split; [done|]. by apply Z.pow_nonneg. }
  set (e := Z.max (PyFloat.ilog2_ratio p q - 52) (-1074)).
  set (P := p * 2 ^ Z.max 0 (- e)). set (Q := q * 2 ^ Z.max 0 e).
  destruct (Z.leb_spec (2 ^ 1024) (PyFloat.round_half_even P Q * 2 ^ e)) as [Ho|Ho];
    [done|].
  assert (0 ≤ P) by (pose proof (pow2_pos (- e)); subst P; nia).
  assert (0 < Q) by (pose proof (pow2_pos e); subst Q; nia).
  pose proof (round_half_even_bounds P Q ltac:(done) ltac:(done)) as [Hlo Hhi].
  assert (0 ≤ P / Q) by (apply Z.div_pos; lia).
  assert (P < Q * 2 ^ 53) as Hlt.
  { subst P Q. apply ratio_below_shift; [lia|].
    apply ratio_below_mono with (a := PyFloat.ilog2_ratio p q + 1); [done|lia|].
    apply ilog2_ratio_upper; lia. }
  assert (P / Q < 2 ^ 53) by (apply Z.div_lt_upper_bound; lia).
  simpl. split; [lia|done].
Qed.

(** ** What [float] returns *)

Lemma is_digit_value c :
  PyFloat.is_digit c = true → 0 ≤ PyFloat.digit_value c ≤ 9.
Proof.
  unfold PyFloat.is_digit, PyFloat.digit_value. intros H.
  apply andb_true_iff in H as [H1 H2].
  apply N.leb_le in H1, H2. lia.
Qed.

Lemma scan_digits_nonneg s acc cnt v n r :
  0 ≤ acc → PyFloat.scan_digits s acc cnt = (v, n, r) → 0 ≤ v.
Proof.
  revert acc cnt. induction s as [|c s IH]; intros acc cnt Hacc; simpl.
  - congruence.
  - destruct (PyFloat.is_digit c) eqn:Hd; [|congruence].
    apply IH. pose proof (is_digit_value c Hd). lia.
Qed.

Lemma of_decimal_valid neg m e10 :
  0 ≤ m → float_valid (PyFloat.of_decimal neg m e10).
Proof.
  intros Hm. unfold PyFloat.of_decimal.
  destruct (Z.leb_spec 0 e10).
  - apply round_ratio_valid; [|done].
    apply Z.mul_nonneg_nonneg; [done|]. by apply Z.pow_nonneg.
  - apply round_ratio_valid; [done|]. apply Z.pow_pos_nonneg; lia.
Qed.

Lemma strtod_valid s x r : PyFloat.strtod s = Some (x, r) → float_valid x.
Proof.
  unfold PyFloat.strtod.
  destruct (PyFloat.parse_sign s) as [neg s1].
  destruct (PyFloat.scan_digits s1 0 0) as [[i ni] s2] eqn:Hi.
  pose proof (scan_digits_nonneg _ _ _ _ _ _ ltac:(done) Hi) as Hi0.
  destruct (match s2 with
            | String "."%char s2' => PyFloat.scan_digits s2' i 0
            | _ => (i, 0, s2)
            end) as [[m nf] s3] eqn:Hm.
  assert (0 ≤ m) as Hm0.
  { destruct s2 as [|c s2']; [congruence|].
    destruct (Ascii.eqb_spec c "."%char) as [->|Hne].
    - eapply scan_digits_nonneg; [exact Hi0|exact Hm].
    - destruct c as [[] [] [] [] [] [] [] []]; try congruence. }
  destruct (ni + nf =? 0); [done|].
  destruct (PyFloat.parse_exponent s3) as [ex s4].
  intros [= <- _]. by apply of_decimal_valid.
Qed.

Lemma parse_inf_or_nan_valid s x r :
  PyFloat.parse_inf_or_nan s = Some (x, r) → float_valid x.
Proof.
  unfold PyFloat.parse_inf_or_nan. intros H.
  repeat case_match; simplify_eq; done.
Qed.

Lemma of_str_valid s x : PyFloat.of_str s = Ok x → float_valid x.
Proof.
  assert (∀ t, PyFloat.from_string_inner t = Ok x → float_valid x) as Hinner.
  { intros t. unfold PyFloat.from_string_inner, PyFloat.ascii_strtod.
    intros H. repeat case_match; simplify_eq;
      eauto using strtod_valid, parse_inf_or_nan_valid. }
  unfold PyFloat.of_str. intros H. repeat case_match; simplify_eq; eauto.
Qed.

(** ** Float operations and exact values *)

Lemma is_integer_divides neg m e :
  PyFloat.is_integer (PyFloat.Finite neg m e) = true
  ↔ (float_den (PyFloat.Finite neg m e) | float_num (PyFloat.Finite neg m e)).
Proof.
  cbn [PyFloat.is_integer float_den float_num].
  destruct (Z.leb_spec 0 e) as [He|He]; cbn [orb].
  - rewrite (Z.max_l 0 (- e)) by lia. rewrite Z.pow_0_r.
    split; [intros _; apply Z.divide_1_l|done].
  - rewrite (Z.max_r 0 (- e)), (Z.max_l 0 e) by lia. rewrite Z.pow_0_r, Z.mul_1_r.
    assert (0 < 2 ^ (- e)) by (apply Z.pow_pos_nonneg; lia).
    rewrite Z.eqb_eq, Z.mod_divide by lia.
    destruct neg; [|done]. by rewrite Z.divide_opp_r.
Qed.

Lemma float_num_abs neg m e :
  0 ≤ m → Z.abs (float_num (PyFloat.Finite neg m e)) = m * 2 ^ Z.max 0 e.
Proof.
  intros Hm. cbn [float_num]. pose proof (pow2_pos e). destruct neg; nia.
Qed.

Lemma ge_Z_abs neg m e k :
  0 ≤ m →
  PyFloat.ge_Z (PyFloat.abs (PyFloat.Finite neg m e)) k = true
  ↔ k * float_den (PyFloat.Finite neg m e)
    ≤ Z.abs (float_num (PyFloat.Finite neg m e)).
Proof.
  intros Hm. rewrite float_num_abs by done.
  cbn [PyFloat.abs PyFloat.ge_Z float_den].
  destruct (Z.leb_spec 0 e) as [He|He].
  - rewrite (Z.max_l 0 (- e)), (Z.max_r 0 e) by lia.
    rewrite Z.pow_0_r, Z.leb_le. lia.
  - rewrite (Z.max_r 0 (- e)), (Z.max_l 0 e) by lia.
    rewrite Z.pow_0_r, Z.leb_le. lia.
Qed.

Lemma to_int_exact neg m e :
  0 ≤ m → PyFloat.is_integer (PyFloat.Finite neg m e) = true →
  PyFloat.to_int (PyFloat.Finite neg m e)
  = Ok ((if neg then -1 else 1)
        * (Z.abs (float_num (PyFloat.Finite neg m e))
           / float_den (PyFloat.Finite neg m e))).
Proof.
  intros Hm Hi. rewrite float_num_abs by done.
  cbn [PyFloat.to_int float_den]. cbn [PyFloat.is_integer] in Hi. f_equal.
  destruct (Z.leb_spec 0 e) as [He|He].
  - rewrite (Z.max_l 0 (- e)), (Z.max_r 0 e) by lia.
    rewrite Z.pow_0_r, Z.div_1_r. destruct neg; lia.
  - rewrite (Z.max_r 0 (- e)), (Z.max_l 0 e) by lia.
    rewrite Z.pow_0_r, Z.mul_1_r. destruct neg; lia.
Qed.

Lemma two_digits_chars f :
  0 ≤ f < 100 →
  PyFloat.two_digits f
  = String (digit_char (f / 10)) (String (digit_char (f mod 10)) EmptyString).
Proof.
  intros Hf.
  assert (forallb (λ f, String.eqb (PyFloat.two_digits f)
            (String (digit_char (f / 10))
               (String (digit_char (f mod 10)) EmptyString))) (seqZ 0 100) = true)
    as Hall by (vm_compute; reflexivity).
  rewrite forallb_forall in Hall. apply String.eqb_eq, Hall.
  apply list_elem_of_In, elem_of_seqZ. lia.
Qed.

(** [format(x, ",.2f")] of a finite float: sign, grouped integer part, a
    point and two digits, of the value rounded to hundredths. *)
Lemma format_comma_2f_finite neg m e :
  0 ≤ m →
  let x := PyFloat.Finite neg m e in
  ∃ h, 0 ≤ h
       ∧ nearest_ties_even (100 * Z.abs (float_num x)) (float_den x) h
       ∧ PyFloat.format_comma_2f x
         = minus_if neg +:+ with_thousands_separators (pretty (h / 100))
           +:+ "." +:+ String (digit_char (h mod 100 / 10))
                          (String (digit_char (h mod 10)) EmptyString).
Proof.
  intros Hm x. subst x. rewrite float_num_abs by done.
  cbn [PyFloat.format_comma_2f float_den].
  set (h := if 0 <=? e then m * 2 ^ e * 100
            else PyFloat.round_half_even (m * 100) (2 ^ (- e))).
  exists h.
  assert (0 ≤ h ∧ nearest_ties_even (100 * (m * 2 ^ Z.max 0 e)) (2 ^ Z.max 0 (- e)) h)
    as [Hh Hnear].
  { subst h. destruct (Z.leb_spec 0 e) as [He|He].
    - rewrite (Z.max_l 0 (- e)), (Z.max_r 0 e) by lia. rewrite Z.pow_0_r.
      assert (0 ≤ 2 ^ e) by (by apply Z.pow_nonneg).
      split; [nia|]. unfold nearest_ties_even.
      replace (m * 2 ^ e * 100 * 1 - 100 * (m * 2 ^ e)) with 0 by lia.
      simpl. split; [lia|]. lia.
    - rewrite (Z.max_r 0 (- e)), (Z.max_l 0 e) by lia. rewrite Z.pow_0_r.
      assert (0 < 2 ^ (- e)) by (apply Z.pow_pos_nonneg; lia).
      replace (100 * (m * 1)) with (m * 100) by lia.
      split; [|apply round_half_even_spec; lia].
      pose proof (round_half_even_bounds (m * 100) (2 ^ (- e)) ltac:(lia) ltac:(lia)).
      assert (0 ≤ m * 100 / 2 ^ (- e)) by (apply Z.div_pos; lia). lia. }
  split; [done|]. split; [done|].
  rewrite group_digits_from_right.
  rewrite two_digits_chars by (apply Z.mod_pos_bound; lia).
  replace (h mod 100 mod 10) with (h mod 10); [by destruct neg|].
  pose proof (Z.div_mod h 100 ltac:(lia)).
  pose proof (Z.mod_pos_bound h 100 ltac:(lia)).
  pose proof (Z.div_mod (h mod 100) 10 ltac:(lia)).
  pose proof (Z.mod_pos_bound (h mod 100) 10 ltac:(lia)).
  pose proof (Z.div_mod h 10 ltac:(lia)).
  pose proof (Z.mod_pos_bound h 10 ltac:(lia)).
  lia.
Qed.

(** ** The numeric formatter on comma-bearing input *)

Lemma contains_nonempty c s : Str.contains c s = true → Str.nonempty s = true.
Proof. by destruct s. Qed.

Lemma format_int_comma_signed (neg : bool) (a : Z) :
  0 < a →
  format_int_comma ((if neg then -1 else 1) * a)
  = minus_if neg +:+ with_thousands_separators (pretty a).
Proof.
  intros Ha. unfold format_int_comma. rewrite group_digits_from_right.
  destruct neg.
  - destruct (Z.ltb_spec (-1 * a) 0); [|lia].
    by replace (Z.abs (-1 * a)) with a by lia.
  - destruct (Z.ltb_spec (1 * a) 0); [lia|].
    by replace (Z.abs (1 * a)) with a by lia.
Qed.

(** C3, as the code has it.  For an input with a comma, by what [float]
    makes of the comma-stripped text: a parse failure returns the input; a
    finite integer value of magnitude at least 1000 is rendered as that
    integer with thousands separators; a finite non-integer of magnitude at
    least 1000 is rendered with thousands separators and two decimals, rounded
    to the nearest hundredth; a finite value below 1000 in magnitude, and NaN,
    return the comma-stripped text; an infinity returns [inf] or [-inf].  The
    empty input returns the empty string. *)
Theorem format_numeric_value_comma_cases (s : string) :
  (s = "" → format_numeric_value s = Ok "")
  ∧ (Str.contains "," s = true →
     let clean := Str.remove "," s in
     match PyFloat.of_str clean with
     | Raise _ => format_numeric_value s = Ok s
     | Ok (PyFloat.Finite neg m e as x) =>
         let num := Z.abs (float_num x) in
         let den := float_den x in
         (1000 * den ≤ num → (den | num) →
          format_numeric_value s
          = Ok (minus_if neg +:+ with_thousands_separators (pretty (num / den))))
         ∧ (1000 * den ≤ num → ¬ (den | num) →
            ∃ h, nearest_ties_even (100 * num) den h
                 ∧ format_numeric_value s
                   = Ok (minus_if neg
                         +:+ with_thousands_separators (pretty (h / 100))
                         +:+ "."
                         +:+ String (digit_char (h mod 100 / 10))
                               (String (digit_char (h mod 10)) EmptyString)))
         ∧ (num < 1000 * den → format_numeric_value s = Ok clean)
     | Ok (PyFloat.Inf neg) => format_numeric_value s = Ok (minus_if neg +:+ "inf")
     | Ok PyFloat.NaN => format_numeric_value s = Ok clean
     end).
Proof.
  split; [by intros ->|]. intros Hc clean.
  rewrite format_numeric_value_unfold, (contains_nonempty _ _ Hc), Hc.
  cbn [negb]. fold clean.
  destruct (PyFloat.of_str clean) as [x|err] eqn:Hf; [|done].
  pose proof (of_str_valid _ _ Hf) as Hv.
  destruct x as [neg m e|neg|]; cycle 1.
  { by destruct neg. }
  { done. }
  destruct Hv as [[Hm _] _].
  set (x := PyFloat.Finite neg m e).
  pose proof (is_integer_divides neg m e) as Hint.
  pose proof (ge_Z_abs neg m e 1000 Hm) as Hge.
  fold x in Hint, Hge.
  assert (0 < float_den x) as Hden by apply pow2_pos.
  assert (Z.divide (float_den x) (float_num x)
          ↔ Z.divide (float_den x) (Z.abs (float_num x))) as Habs
    by (by rewrite Z.divide_abs_r).
  unfold format_parsed. split; [|split].
  - intros Hbig Hdiv.
    rewrite (proj2 Hint) by (by apply Habs). rewrite (proj2 Hge) by done.
    cbn [andb]. unfold x at 1. rewrite to_int_exact by (done || by apply Hint, Habs).
    fold x. change (Ok ?a ≫= ?f) with (f a). cbn beta.
    unfold try_except_ValueError. f_equal. apply format_int_comma_signed.
    apply Z.lt_le_trans with 1000; [done|].
    apply Z.div_le_lower_bound; lia.
  - intros Hbig Hndiv.
    destruct (PyFloat.is_integer x) eqn:Hi.
    { exfalso. apply Hndiv, Habs, Hint. done. }
    rewrite (proj2 Hge) by done. cbn.
    destruct (format_comma_2f_finite neg m e Hm) as (h & _ & Hnear & Hfmt).
    exists h. split; [done|]. by rewrite <- Hfmt.
  - intros Hsmall.
    assert (PyFloat.ge_Z (PyFloat.abs x) 1000 = false) as ->.
    { apply not_true_iff_false. intros Hg. apply Hge in Hg. lia. }
    by rewrite andb_false_r.
Qed.

Lemma format_numeric_value_comma_cases_witness :
  Str.contains "," "1,500" = true
  ∧ format_numeric_value "1,500" = Ok "1,500".
Proof.
  split; [reflexivity|].
  assert (PyFloat.of_str (Str.remove "," "1,500")
          = Ok (PyFloat.Finite false 6597069766656000 (-42))) as Hf
    by (vm_compute; reflexivity).
  pose proof (proj2 (format_numeric_value_comma_cases "1,500") eq_refl) as H.
  cbv zeta in H. rewrite Hf in H. destruct H as [H _].
  rewrite H.
  - vm_compute. reflexivity.
  - vm_compute. discriminate.
  - exists 1500. vm_compute. reflexivity.
Defined.

(** C3 as stated fails on infinities: the text parses, is not an integer and
    is at least 1000 in magnitude, yet the result has neither separators nor
    decimals. *)
Lemma format_numeric_value_infinity_counterexample :
  let s := "1,000e999" in
  Str.contains "," s = true
  ∧ PyFloat.of_str (Str.remove "," s) = Ok (PyFloat.Inf false)
  ∧ PyFloat.is_integer (PyFloat.Inf false) = false
  ∧ PyFloat.ge_Z (PyFloat.abs (PyFloat.Inf false)) 1000 = true
  ∧ format_numeric_value s = Ok "inf"
  ∧ Str.contains "," "inf" = false
  ∧ Str.contains "." "inf" = false.
Proof. vm_compute. repeat split; reflexivity. Qed.

(** ** Decimal strings *)

Lemma append_cons c (s t : string) : String c s +:+ t = String c (s +:+ t).
Proof. reflexivity. Qed.

Lemma append_assoc (s1 s2 s3 : string) : (s1 +:+ s2) +:+ s3 = s1 +:+ (s2 +:+ s3).
Proof.
  induction s1 as [|c s1 IH]; [done|]. by rewrite !append_cons, IH.
Qed.

Lemma append_nil_r (s : string) : s +:+ "" = s.
Proof. induction s as [|c s IH]; [done|]. by rewrite append_cons, IH. Qed.

Lemma length_append (s1 s2 : string) :
  String.length (s1 +:+ s2) = (String.length s1 + String.length s2)%nat.
Proof.
  induction s1 as [|c s1 IH]; [done|]. rewrite append_cons. simpl. by rewrite IH.
Qed.

Lemma all_chars_app P s1 s2 :
  all_chars P (s1 +:+ s2) = all_chars P s1 && all_chars P s2.
Proof.
  induction s1 as [|c s1 IH]; [done|].
  rewrite append_cons. simpl. by rewrite IH, andb_assoc.
Qed.

Lemma all_chars_impl (P Q : ascii → bool) s :
  (∀ c, P c = true → Q c = true) → all_chars P s = true → all_chars Q s = true.
Proof.
  intros HPQ. induction s as [|c s IH]; simpl; [done|].
  intros [Hc Hs]%andb_true_iff. by rewrite (HPQ c Hc), IH.
Qed.

Lemma decimal_value_app acc s1 s2 :
  decimal_value acc (s1 +:+ s2) = decimal_value (decimal_value acc s1) s2.
Proof.
  revert acc. induction s1 as [|c s1 IH]; intros acc; [done|].
  rewrite append_cons. simpl. apply IH.
Qed.

Lemma pretty_N_char_digit (d : N) :
  (d < 10)%N →
  PyFloat.is_digit (pretty_N_char d) = true
  ∧ PyFloat.digit_value (pretty_N_char d) = Z.of_N d.
Proof.
  intros Hd.
  assert (d = 0 ∨ d = 1 ∨ d = 2 ∨ d = 3 ∨ d = 4 ∨ d = 5 ∨ d = 6 ∨ d = 7
          ∨ d = 8 ∨ d = 9)%N as Hcases by lia.
  repeat destruct Hcases as [->|Hcases]; [..|subst d]; by vm_compute.
Qed.

(** What the decimal printer produces: a string of digits that denotes the
    number, with as many digits as the number needs. *)
Lemma pretty_N_go_digits (x : N) :
  ∃ t, (∀ s, pretty_N_go x s = t +:+ s)
       ∧ all_chars PyFloat.is_digit t = true
       ∧ decimal_value 0 t = Z.of_N x
       ∧ Z.of_N x < 10 ^ Z.of_nat (String.length t)
       ∧ ((0 < x)%N → t ≠ "").
Proof.
  induction (N.lt_wf_0 x) as [x _ IH].
  destruct (decide (x = 0)%N) as [->|Hx].
  { exists "". repeat split; done || lia. }
  assert (0 < x)%N as Hpos by lia.
  destruct (IH (x `div` 10)%N) as (t & Hgo & Hdig & Hval & Hlt & _).
  { apply N.div_lt; lia. }
  pose proof (N.mod_lt x 10 ltac:(lia)) as Hmod.
  destruct (pretty_N_char_digit (x `mod` 10)%N Hmod) as [Hcd Hcv].
  exists (t +:+ String (pretty_N_char (x `mod` 10)) "").
  split; [|split; [|split; [|split]]].
  - intros s. rewrite pretty_N_go_step, Hgo, append_assoc by done. done.
  - rewrite all_chars_app, Hdig. simpl. by rewrite Hcd.
  - rewrite decimal_value_app, Hval. simpl. rewrite Hcv.
    rewrite (N.div_mod x 10) at 3 by lia. lia.
  - rewrite length_append. simpl.
    rewrite Nat2Z.inj_add, Z.pow_add_r by lia. simpl (Z.of_nat 1).
    rewrite Z.pow_1_r.
    pose proof (N.div_mod x 10 ltac:(lia)). lia.
  - intros _. by destruct t.
Qed.

Lemma pretty_Z_digits (a : Z) :
  0 < a →
  all_chars PyFloat.is_digit (pretty a) = true
  ∧ decimal_value 0 (pretty a) = a
  ∧ a < 10 ^ Z.of_nat (String.length (pretty a))
  ∧ pretty a ≠ "".
Proof.
  intros Ha. destruct a as [|p|p]; try lia.
  change (pretty (Z.pos p)) with (pretty_N_go (N.pos p) "").
  destruct (pretty_N_go_digits (N.pos p)) as (t & Hgo & Hdig & Hval & Hlt & Hne).
  rewrite Hgo, append_nil_r. repeat split; try done. by apply Hne.
Qed.

Lemma scan_digits_all t acc cnt :
  all_chars PyFloat.is_digit t = true →
  PyFloat.scan_digits t acc cnt
  = (decimal_value acc t, cnt + Z.of_nat (String.length t), "").
Proof.
  revert acc cnt. induction t as [|c t IH]; intros acc cnt; simpl.
  - intros _. do 2 f_equal. lia.
  - intros [Hc Ht]%andb_true_iff. rewrite Hc, IH by done. do 2 f_equal. lia.
Qed.

(** ** [float] on the text of an integer *)

Lemma is_int_char_facts c :
  is_int_char c = true →
  PyFloat.is_space c = false ∧ Ascii.eqb "_" c = false ∧ Ascii.eqb "," c = false.
Proof. destruct c as [[] [] [] [] [] [] [] []]; by vm_compute. Qed.

Lemma contains_all_chars d P s :
  (∀ c, P c = true → Ascii.eqb d c = false) →
  all_chars P s = true → Str.contains d s = false.
Proof.
  intros HP. induction s as [|c s IH]; simpl; [done|].
  intros [Hc Hs]%andb_true_iff. by rewrite (HP c Hc), IH.
Qed.

Lemma remove_all_chars d P s :
  (∀ c, P c = true → Ascii.eqb d c = false) →
  all_chars P s = true → Str.remove d s = s.
Proof.
  intros HP. induction s as [|c s IH]; simpl; [done|].
  intros [Hc Hs]%andb_true_iff. by rewrite (HP c Hc), IH.
Qed.

Lemma float_strip_id s :
  all_chars is_int_char s = true → PyFloat.lstrip (PyFloat.rstrip s) = s.
Proof.
  intros Hs.
  assert (PyFloat.rstrip s = s) as ->.
  { induction s as [|c s IH]; simpl; [done|].
    simpl in Hs. apply andb_true_iff in Hs as [Hc Hs].
    rewrite IH by done. destruct (is_int_char_facts c Hc) as [-> _].
    by destruct s. }
  destruct s as [|c s]; simpl; [done|].
  simpl in Hs. apply andb_true_iff in Hs as [Hc _].
  by destruct (is_int_char_facts c Hc) as [-> _].
Qed.

Lemma parse_sign_digit c t :
  PyFloat.is_digit c = true → PyFloat.parse_sign (String c t) = (false, String c t).
Proof. destruct c as [[] [] [] [] [] [] [] []]; by vm_compute. Qed.

Lemma all_chars_signed neg t :
  all_chars PyFloat.is_digit t = true →
  all_chars is_int_char (minus_if neg +:+ t) = true.
Proof.
  intros Ht.
  assert (all_chars is_int_char t = true) as Ht'.
  { eapply all_chars_impl; [|exact Ht]. intros c Hc. unfold is_int_char. by rewrite Hc. }
  destruct neg; simpl; done.
Qed.

(** [float] reads the text of an integer as that integer, correctly rounded. *)
Lemma of_str_integer_text neg t :
  all_chars PyFloat.is_digit t = true → t ≠ "" →
  PyFloat.of_str (minus_if neg +:+ t)
  = Ok (PyFloat.round_ratio neg (decimal_value 0 t) 1).
Proof.
  intros Ht Hne. pose proof (all_chars_signed neg t Ht) as Hall.
  unfold PyFloat.of_str.
  rewrite (contains_all_chars "_" is_int_char) by
    (done || intros c Hc; apply (is_int_char_facts c Hc)).
  unfold PyFloat.from_string_inner. rewrite float_strip_id by done.
  assert (PyFloat.strtod (minus_if neg +:+ t)
          = Some (PyFloat.round_ratio neg (decimal_value 0 t) 1, "")) as Hstrtod.
  { unfold PyFloat.strtod.
    assert (PyFloat.parse_sign (minus_if neg +:+ t) = (neg, t)) as ->.
    { destruct neg; [done|]. destruct t as [|c t]; [done|].
      simpl in Ht. apply andb_true_iff in Ht as [Hc _].
      by apply parse_sign_digit. }
    rewrite scan_digits_all by done. cbn [PyFloat.parse_exponent].
    destruct (Z.eqb_spec (0 + Z.of_nat (String.length t) + 0) 0) as [Hz|_].
    { destruct t; [done|]. simpl in Hz. lia. }
    unfold PyFloat.of_decimal. simpl (0 <=? 0 - 0).
    cbn match. do 3 f_equal. simpl (0 - 0). rewrite Z.pow_0_r. lia. }
  destruct (minus_if neg +:+ t) as [|c u] eqn:Hu.
  { destruct neg; [done|]. simpl in Hu. done. }
  unfold PyFloat.ascii_strtod. by rewrite Hstrtod.
Qed.

Lemma ilog2_ratio_integer a : 0 < a → PyFloat.ilog2_ratio a 1 = Z.log2 a.
Proof.
  intros Ha. unfold PyFloat.ilog2_ratio.
  change (Z.log2 1) with 0. rewrite Z.sub_0_r.
  pose proof (Z.log2_nonneg a) as HL. destruct (Z.log2_spec a Ha) as [Hlo _].
  rewrite (Z.max_l 0 (- Z.log2 a)), (Z.max_r 0 (Z.log2 a)) by lia.
  rewrite Z.pow_0_r. destruct (Z.ltb_spec (a * 1) (1 * 2 ^ Z.log2 a)); [lia|done].
Qed.

(** Rounding is exact on an integer that is a binary64 value. *)
Lemma round_ratio_integer neg a m0 e0 :
  0 ≤ e0 → 0 < m0 ≤ 2 ^ 53 → a = m0 * 2 ^ e0 → a < 2 ^ 1024 →
  ∃ m' e', PyFloat.round_ratio neg a 1 = PyFloat.Finite neg m' e'
           ∧ ((0 ≤ e' ∧ m' * 2 ^ e' = a) ∨ (e' < 0 ∧ m' = a * 2 ^ (- e'))).
Proof.
  intros He0 Hm0 Ha Hmax.
  assert (0 < 2 ^ e0) as Hp0 by (apply Z.pow_pos_nonneg; lia).
  assert (0 < a) as Hpos by nia.
  unfold PyFloat.round_ratio.
  destruct (Z.eqb_spec a 0) as [?|_]; [lia|].
  rewrite ilog2_ratio_integer by done.
  pose proof (Z.log2_nonneg a) as HL.
  rewrite (Z.max_l (Z.log2 a - 52) (-1074)) by lia.
  set (e := Z.log2 a - 52).
  destruct (Z.le_gt_cases e 0) as [Hle|Hgt].
  - (* the integer has at most 53 bits *)
    rewrite (Z.max_r 0 (- e)), (Z.max_l 0 e) by lia.
    rewrite Z.pow_0_r, Z.mul_1_l.
    rewrite round_half_even_exact by (lia || apply Z.mod_1_r).
    rewrite Z.div_1_r.
    destruct (Z.eq_dec e 0) as [Hz|Hnz].
    + rewrite Hz. simpl (- 0). rewrite Z.pow_0_r, !Z.mul_1_r.
      destruct (Z.leb_spec (2 ^ 1024) a); [lia|].
      exists a, 0. split; [done|]. left. rewrite Z.pow_0_r. lia.
    + rewrite (Z.pow_neg_r 2 e) by lia. rewrite Z.mul_0_r.
      destruct (Z.leb_spec (2 ^ 1024) 0) as [Hbad|_].
      { exfalso. assert (0 < 2 ^ 1024) by (apply Z.pow_pos_nonneg; lia). lia. }
      exists (a * 2 ^ (- e)), e. split; [done|]. right. lia.
  - (* more than 53 bits: the low bits are zero *)
    rewrite (Z.max_l 0 (- e)), (Z.max_r 0 e) by lia.
    rewrite Z.pow_0_r, Z.mul_1_r, Z.mul_1_l.
    assert (0 < 2 ^ e) as Hpe by (apply Z.pow_pos_nonneg; lia).
    assert (∃ c, a = c * 2 ^ e) as [c Hc].
    { assert (Z.log2 a = e0 + Z.log2 m0) as HLa
        by (rewrite Ha; apply Z.log2_mul_pow2; lia).
      assert (Z.log2 m0 ≤ 53) as Hlm.
      { rewrite <- (Z.log2_pow2 53) by lia. apply Z.log2_le_mono. lia. }
      destruct (Z.le_gt_cases e e0) as [Hee|Hee].
      - exists (m0 * 2 ^ (e0 - e)). rewrite <- Z.mul_assoc, <- Z.pow_add_r by lia.
        rewrite Ha. do 2 f_equal. lia.
      - assert (Z.log2 m0 = 53) as H53 by lia.
        assert (2 ^ 53 ≤ m0) by (apply Z.log2_le_pow2; lia).
        assert (m0 = 2 ^ 53) as -> by lia.
        assert (e = e0 + 1) as -> by lia.
        exists (2 ^ 52). rewrite Ha, <- !Z.pow_add_r by lia. f_equal. lia. }
    rewrite round_half_even_exact by (done || (rewrite Hc; apply Z.mod_mul; lia)).
    assert (a / 2 ^ e * 2 ^ e = a) as Hexact
      by (rewrite Hc, Z.div_mul by lia; done).
    rewrite Hexact. destruct (Z.leb_spec (2 ^ 1024) a); [lia|].
    exists (a / 2 ^ e), e. split; [done|]. left. lia.
Qed.

(** ** The numeric formatter applied to its own output *)

Lemma contains_app c s1 s2 :
  Str.contains c (s1 +:+ s2) = Str.contains c s1 || Str.contains c s2.
Proof.
  induction s1 as [|d s1 IH]; [done|].
  rewrite append_cons. simpl. by rewrite IH, orb_assoc.
Qed.

Lemma remove_app c s1 s2 :
  Str.remove c (s1 +:+ s2) = Str.remove c s1 +:+ Str.remove c s2.
Proof.
  induction s1 as [|d s1 IH]; [done|].
  rewrite append_cons. simpl.
  destruct (Ascii.eqb c d); by rewrite IH.
Qed.

Lemma group_digits_has_comma t :
  (4 ≤ String.length t)%nat → Str.contains "," (PyFloat.group_digits t) = true.
Proof.
  induction t as [|c t IH]; [simpl; lia|]. intros Hlen.
  cbn [PyFloat.group_digits Str.contains String.length] in *.
  destruct (negb (String.length t =? 0)%nat && (String.length t mod 3 =? 0)%nat)
    eqn:Hcond.
  - cbn [Str.contains]. rewrite Ascii.eqb_refl. apply orb_true_r.
  - rewrite IH; [apply orb_true_r|].
    destruct (String.length t) as [|[|[|[|n]]]]; try lia. discriminate Hcond.
Qed.

(** The large-integer branch on a float that holds the integer [a] exactly. *)
Lemma format_parsed_exact_integer clean neg m e a :
  1000 ≤ a →
  (0 ≤ e ∧ m * 2 ^ e = a) ∨ (e < 0 ∧ m = a * 2 ^ (- e)) →
  format_parsed clean (PyFloat.Finite neg m e)
  = Ok (format_int_comma (if neg then - a else a)).
Proof.
  intros Ha Hex. unfold format_parsed.
  cbn [PyFloat.is_integer PyFloat.abs PyFloat.ge_Z PyFloat.to_int].
  destruct Hex as [[He Hv]|[He Hv]].
  - destruct (Z.leb_spec 0 e); [|lia]. rewrite Hv. cbn [orb andb].
    destruct (Z.leb_spec 1000 a); [|lia]. done.
  - destruct (Z.leb_spec 0 e); [lia|]. cbn [orb].
    assert (0 < 2 ^ (- e)) by (apply Z.pow_pos_nonneg; lia).
    rewrite Hv, Z.mod_mul, Z.div_mul by lia. cbn [Z.eqb andb].
    destruct (Z.leb_spec (1000 * 2 ^ (- e)) (a * 2 ^ (- e))); [done|nia].
Qed.

(** The integer a valid float holds, when it holds one. *)
Lemma float_integer_value neg m e :
  float_valid (PyFloat.Finite neg m e) →
  PyFloat.is_integer (PyFloat.Finite neg m e) = true →
  PyFloat.ge_Z (PyFloat.abs (PyFloat.Finite neg m e)) 1000 = true →
  ∃ a m0 e0, 1000 ≤ a ∧ a < 2 ^ 1024 ∧ 0 ≤ e0 ∧ 0 < m0 ≤ 2 ^ 53 ∧ a = m0 * 2 ^ e0
             ∧ ((0 ≤ e ∧ m * 2 ^ e = a) ∨ (e < 0 ∧ m = a * 2 ^ (- e))).
Proof.
  intros [[Hm0 Hm53] Hmax] Hi Hge.
  cbn [PyFloat.is_integer PyFloat.abs PyFloat.ge_Z] in Hi, Hge.
  destruct (Z.leb_spec 0 e) as [He|He].
  - apply Z.leb_le in Hge.
    assert (0 < 2 ^ e) by (apply Z.pow_pos_nonneg; lia).
    exists (m * 2 ^ e), m, e. repeat split; lia.
  - cbn [orb] in Hi. apply Z.eqb_eq in Hi. apply Z.leb_le in Hge.
    assert (0 < 2 ^ (- e)) as Hp by (apply Z.pow_pos_nonneg; lia).
    pose proof (Z.div_mod m (2 ^ (- e)) ltac:(lia)) as Hdm. rewrite Hi in Hdm.
    set (a := m / 2 ^ (- e)) in *.
    assert (2 ^ 53 < 2 ^ 1024) by (apply Z.pow_lt_mono_r; lia).
    exists a, a, 0. rewrite Z.pow_0_r.
    repeat split; first [nia | right; split; [done|lia]].
Qed.

(** X1.  The formatter leaves its own large-integer output unchanged: when an
    input with a comma parses to an integer of magnitude at least 1000,
    formatting the result a second time returns it as it is. *)
Theorem format_numeric_value_idempotent_on_integers (s : string) (x : PyFloat.t) :
  Str.contains "," s = true →
  PyFloat.of_str (Str.remove "," s) = Ok x →
  PyFloat.is_integer x = true →
  PyFloat.ge_Z (PyFloat.abs x) 1000 = true →
  ∃ out, format_numeric_value s = Ok out ∧ format_numeric_value out = Ok out.
Proof.
  intros Hc Hf Hi Hge.
  pose proof (of_str_valid _ _ Hf) as Hv.
  destruct x as [neg m e| |]; [|done..].
  destruct (float_integer_value neg m e Hv Hi Hge)
    as (a & m0 & e0 & Ha & Hmax & He0 & Hm0 & Hrep & Hex).
  set (out := format_int_comma (if neg then - a else a)).
  exists out.
  assert (format_numeric_value s = Ok out) as Hfirst.
  { rewrite format_numeric_value_unfold, (contains_nonempty _ _ Hc), Hc, Hf.
    cbn [negb]. by rewrite (format_parsed_exact_integer _ neg m e a). }
  split; [done|].
  destruct (pretty_Z_digits a ltac:(lia)) as (Hdig & Hval & Hlen & Hne).
  assert (out = minus_if neg +:+ PyFloat.group_digits (pretty a)) as Hout.
  { subst out. unfold format_int_comma. destruct neg.
    - destruct (Z.ltb_spec (- a) 0); [|lia]. by replace (Z.abs (- a)) with a by lia.
    - destruct (Z.ltb_spec a 0); [lia|]. by replace (Z.abs a) with a by lia. }
  assert (Str.contains "," (pretty a) = false) as Hnocomma.
  { apply (contains_all_chars "," PyFloat.is_digit); [|done].
    intros c Hd. apply (is_int_char_facts c). unfold is_int_char. by rewrite Hd. }
  assert (Str.contains "," out = true) as Hcomma.
  { rewrite Hout, contains_app, group_digits_has_comma; [by rewrite orb_true_r|].
    destruct (le_lt_dec 4 (String.length (pretty a))) as [?|Hshort]; [done|].
    exfalso.
    assert (10 ^ Z.of_nat (String.length (pretty a)) ≤ 10 ^ 3)
      by (apply Z.pow_le_mono_r; lia).
    change (10 ^ 3) with 1000 in *. lia. }
  assert (Str.remove "," out = minus_if neg +:+ pretty a) as Hclean.
  { rewrite Hout, remove_app, remove_comma_group_digits by done.
    by destruct neg. }
  rewrite format_numeric_value_unfold, (contains_nonempty _ _ Hcomma), Hcomma, Hclean.
  cbn [negb]. rewrite of_str_integer_text, Hval by done.
  destruct (round_ratio_integer neg a m0 e0 He0 Hm0 Hrep Hmax) as (m' & e' & -> & Hex').
  by rewrite (format_parsed_exact_integer _ neg m' e' a).
Qed.

Lemma format_numeric_value_idempotent_witness :
  ∃ out, format_numeric_value "12,345" = Ok out ∧ format_numeric_value out = Ok out.
Proof.
  apply (format_numeric_value_idempotent_on_integers "12,345"
           (PyFloat.Finite false 6786735522447360 (-39)));
    reflexivity.
Defined.

(** X2.  Without a comma the formatter returns its input, whatever it is. *)
Theorem format_numeric_value_without_comma (s : string) :
  Str.contains "," s = false → format_numeric_value s = Ok s.
Proof.
  intros Hc. rewrite format_numeric_value_unfold, Hc. by destruct s.
Qed.

Lemma format_numeric_value_without_comma_witness :
  format_numeric_value "1234567" = Ok "1234567".
Proof. apply format_numeric_value_without_comma. reflexivity. Defined.

(** X3.  The formatter keeps the value of an integer it regroups.  Digits with
    commas at any places, denoting an integer from 1000 to [2^53], come out
    as the decimal digits of the same integer, without leading zeros, with a
    comma before every group of three digits counted from the right. *)
Theorem format_numeric_value_regroups (s : string) :
  Str.contains "," s = true →
  all_chars PyFloat.is_digit (Str.remove "," s) = true →
  1000 ≤ decimal_value 0 (Str.remove "," s) ≤ 2 ^ 53 →
  format_numeric_value s
  = Ok (with_thousands_separators (pretty (decimal_value 0 (Str.remove "," s)))).
Proof.
  intros Hc Hdig Hrange.
  set (t := Str.remove "," s) in *. set (a := decimal_value 0 t) in *.
  assert (t ≠ "") as Hne.
  { intros Ht. subst a. rewrite Ht in Hrange. simpl in Hrange. lia. }
  rewrite format_numeric_value_unfold, (contains_nonempty _ _ Hc), Hc.
  cbn [negb]. fold t.
  pose proof (of_str_integer_text false t Hdig Hne) as Hparse.
  change (minus_if false +:+ t) with t in Hparse. rewrite Hparse. fold a.
  destruct (round_ratio_integer false a a 0) as (m' & e' & -> & Hex);
    [lia | lia | lia | |].
  { apply Z.le_lt_trans with (2 ^ 53); [lia|]. by apply Z.pow_lt_mono_r. }
  rewrite (format_parsed_exact_integer _ false m' e' a) by (lia || done).
  pose proof (format_int_comma_signed false a ltac:(lia)) as Hfmt.
  cbv iota in Hfmt. rewrite Z.mul_1_l in Hfmt.
  cbv iota. cbn [try_except_ValueError]. f_equal. exact Hfmt.
Qed.

Lemma format_numeric_value_regroups_witness :
  format_numeric_value "12,34567" = Ok "1,234,567".
Proof.
  apply (format_numeric_value_regroups "12,34567").
  - reflexivity.
  - reflexivity.
  - vm_compute. split; discriminate.
Defined.

(** Above [2^53] the value may change: the nearest float is what is
    printed. *)
Example format_numeric_value_rounds_large_integers :
  format_numeric_value "9,007,199,254,740,993" = Ok "9,007,199,254,740,992".
Proof. vm_compute. reflexivity. Qed.

(** ** Reading a row and writing the model *)

Lemma bind_Ok {A B} (a : A) (f : A → result B) : (Ok a ≫= f) = f a.
Proof. reflexivity. Qed.

Lemma bind_Raise {A B} (e : exn) (f : A → result B) : (Raise e ≫= f) = Raise e.
Proof. reflexivity. Qed.

Lemma process_row_read_row kernels row :
  process_row kernels row = (entry ← read_row row; Ok (apply_entry kernels entry)).
Proof.
  unfold process_row, read_row.
  destruct (getitem row "Kernel Name") as [kn|e]; [|done]. rewrite !bind_Ok.
  destruct (extract_kernel_name_cell kn) as [k|e]; [|done]. rewrite !bind_Ok.
  destruct (getitem row "Section Name") as [sn|e]; [|done]. rewrite !bind_Ok.
  destruct (section_mappings_get sn sn) as [[|c s]|]; [done| |done].
  destruct (getitem_strip row "Metric Name") as [mn|e]; [|done]. rewrite !bind_Ok.
  destruct (Str.nonempty mn).
  - destruct (getitem_strip row "Metric Unit") as [mu|e]; [|done]. rewrite !bind_Ok.
    destruct (getitem_strip row "Metric Value") as [mv|e]; [|done]. rewrite !bind_Ok.
    destruct (format_numeric_value mv) as [v|e]; [|done]. rewrite !bind_Ok.
    destruct (getitem_strip row "Rule Name") as [rn|e]; [|done]. rewrite !bind_Ok.
    destruct (Str.nonempty rn); [|done].
    destruct (getitem_strip row "Rule Type") as [rt|e]; [|done]. rewrite !bind_Ok.
    destruct (getitem_strip row "Rule Description") as [rd|e]; [|done]. rewrite !bind_Ok.
    destruct (getitem_strip row "Estimated Speedup Type") as [st|e]; [|done].
    rewrite !bind_Ok.
    destruct (getitem_strip row "Estimated Speedup") as [sp|e]; done.
  - rewrite !bind_Ok.
    destruct (getitem_strip row "Rule Name") as [rn|e]; [|done]. rewrite !bind_Ok.
    destruct (Str.nonempty rn); [|done].
    destruct (getitem_strip row "Rule Type") as [rt|e]; [|done]. rewrite !bind_Ok.
    destruct (getitem_strip row "Rule Description") as [rd|e]; [|done]. rewrite !bind_Ok.
    destruct (getitem_strip row "Estimated Speedup Type") as [st|e]; [|done].
    rewrite !bind_Ok.
    destruct (getitem_strip row "Estimated Speedup") as [sp|e]; done.
Qed.

Lemma foldM_app {S A} (f : S → A → result S) s l1 l2 :
  foldM f s (l1 ++ l2) = (s' ← foldM f s l1; foldM f s' l2).
Proof.
  revert s. induction l1 as [|a l1 IH]; intros s; simpl; [done|].
  destruct (f s a) as [s'|e]; [|done]. rewrite !bind_Ok. apply IH.
Qed.

(** The parser reads every row, then writes the entries in order. *)
Lemma parse_as_entries_from kernels rows :
  foldM process_row kernels rows
  = (entries ← mapM read_row rows; Ok (fold_left apply_entry entries kernels)).
Proof.
  revert kernels. induction rows as [|row rows IH]; intros kernels; [done|].
  cbn [foldM mapM]. rewrite process_row_read_row.
  destruct (read_row row) as [entry|e]; [|done]. rewrite !bind_Ok, IH.
  destruct (mapM read_row rows) as [entries|e]; done.
Qed.

Lemma parse_as_entries rows :
  parse_ncu_csv_data rows
  = (entries ← mapM read_row rows; Ok (fold_left apply_entry entries [])).
Proof. apply parse_as_entries_from. Qed.

(** ** Insertion-ordered dictionaries *)

Section dict.
Context {V : Type}.
Implicit Types (d : Dict.t V) (k : string) (v : V).

Lemma dict_get_set_eq k v d : Dict.get k (Dict.set k v d) = Some v.
Proof.
  induction d as [|[k' v'] d IH]; simpl.
  - by rewrite String.eqb_refl.
  - destruct (String.eqb_spec k k'); simpl.
    + by rewrite String.eqb_refl.
    + by destruct (String.eqb_spec k k').
Qed.

Lemma dict_get_set_ne k k' v d :
  k ≠ k' → Dict.get k' (Dict.set k v d) = Dict.get k' d.
Proof.
  intros Hne. induction d as [|[k0 v0] d IH]; simpl.
  - by destruct (String.eqb_spec k' k).
  - destruct (String.eqb_spec k k0) as [->|]; simpl.
    + by destruct (String.eqb_spec k' k0).
    + by rewrite IH.
Qed.

Lemma dict_get_None k d : Dict.get k d = None ↔ k ∉ Dict.keys d.
Proof.
  induction d as [|[k' v'] d IH]; simpl.
  - split; [intros _; apply not_elem_of_nil|done].
  - rewrite not_elem_of_cons. destruct (String.eqb_spec k k'); [|tauto].
    split; [done|]. intros [? _]. done.
Qed.

Lemma dict_get_Some_elem k v d : Dict.get k d = Some v → (k, v) ∈ d.
Proof.
  induction d as [|[k' v'] d IH]; simpl; [done|].
  destruct (String.eqb_spec k k') as [->|].
  - intros [= ->]. apply list_elem_of_here.
  - intros H. apply list_elem_of_further. auto.
Qed.

Lemma dict_elem_get k v d : NoDup (Dict.keys d) → (k, v) ∈ d → Dict.get k d = Some v.
Proof.
  induction d as [|[k' v'] d IH]; simpl.
  - intros _ H. by apply elem_of_nil in H.
  - intros [Hk Hnd]%NoDup_cons [Heq|Hin]%elem_of_cons.
    + injection Heq as -> ->. by rewrite String.eqb_refl.
    + destruct (String.eqb_spec k k') as [->|]; [|auto].
      exfalso. apply Hk. apply (list_elem_of_fmap_2 fst) in Hin. done.
Qed.

(** Setting a key keeps the key order: an existing key stays in place, a new
    one goes last. *)
Lemma dict_keys_set k v d :
  Dict.keys (Dict.set k v d)
  = if decide (k ∈ Dict.keys d) then Dict.keys d else Dict.keys d ++ [k].
Proof.
  unfold Dict.keys. induction d as [|[k' v'] d IH]; cbn [Dict.set map fst].
  - destruct (decide (k ∈ [])) as [H|_]; [by apply elem_of_nil in H|done].
  - destruct (String.eqb_spec k k') as [->|Hne]; cbn [map fst].
    + destruct (decide (k' ∈ k' :: map fst d)) as [_|H]; [done|].
      exfalso. apply H, list_elem_of_here.
    + rewrite IH.
      destruct (decide (k ∈ map fst d)) as [Hin|Hnin];
        destruct (decide (k ∈ k' :: map fst d)) as [Hin'|Hnin']; try done.
      * exfalso. apply Hnin'. by apply list_elem_of_further.
      * exfalso. by apply elem_of_cons in Hin' as [?|?].
Qed.

Lemma dict_set_NoDup k v d : NoDup (Dict.keys d) → NoDup (Dict.keys (Dict.set k v d)).
Proof.
  intros Hnd. rewrite dict_keys_set. destruct (decide (k ∈ Dict.keys d)); [done|].
  apply NoDup_app. split; [done|]. split; [|apply NoDup_singleton].
  intros x Hx ->%list_elem_of_singleton. done.
Qed.

Lemma dict_set_Forall (P : string * V → Prop) k v d :
  Forall P d → P (k, v) → Forall P (Dict.set k v d).
Proof.
  intros Hd Hkv. induction Hd as [|[k' v'] d HP Hd IH]; simpl.
  - by constructor.
  - destruct (String.eqb_spec k k'); by constructor.
Qed.

Lemma dict_set_nonempty k v d : Dict.set k v d ≠ [].
Proof. destruct d as [|[k' v'] d]; simpl; [done|]. by destruct (String.eqb k k'). Qed.

End dict.

(** ** The writes of the aggregator *)

Lemma set_metric_update kernels k s n m :
  set_metric kernels k s n m = update_section kernels k s (with_metric n m).
Proof. reflexivity. Qed.

Lemma append_rule_update kernels k s r :
  append_rule kernels k s r = update_section kernels k s (with_rule r).
Proof. reflexivity. Qed.

Lemma dict_Forall_get {V} (P : string * V → Prop) k v (d : Dict.t V) :
  Forall P d → Dict.get k d = Some v → P (k, v).
Proof.
  intros Hd Hget. rewrite Forall_forall in Hd. by apply Hd, dict_get_Some_elem.
Qed.

Lemma sections_of_update_eq kernels k s f :
  sections_of (update_section kernels k s f) k
  = Dict.set s (f (data_of kernels k s)) (sections_of kernels k).
Proof. unfold sections_of, update_section, section_at. by rewrite dict_get_set_eq. Qed.

Lemma sections_of_update_ne kernels k k' s f :
  k ≠ k' → sections_of (update_section kernels k s f) k' = sections_of kernels k'.
Proof.
  intros Hne. unfold sections_of, update_section, section_at.
  by rewrite dict_get_set_ne.
Qed.

Lemma data_of_update_eq kernels k s f :
  data_of (update_section kernels k s f) k s = f (data_of kernels k s).
Proof. unfold data_of. by rewrite sections_of_update_eq, dict_get_set_eq. Qed.

Lemma data_of_update_ne kernels k s k' s' f :
  (k, s) ≠ (k', s') →
  data_of (update_section kernels k s f) k' s' = data_of kernels k' s'.
Proof.
  intros Hne. unfold data_of.
  destruct (decide (k = k')) as [<-|Hk].
  - rewrite sections_of_update_eq, dict_get_set_ne; [done|congruence].
  - by rewrite sections_of_update_ne.
Qed.

Lemma keys_update kernels k s f :
  Dict.keys (update_section kernels k s f)
  = if decide (k ∈ Dict.keys kernels) then Dict.keys kernels
    else Dict.keys kernels ++ [k].
Proof. unfold update_section, section_at. apply dict_keys_set. Qed.

Lemma update_section_ok kernels k s f :
  model_ok kernels → s ≠ "" →
  (∀ d, d = new_section ∨ section_ok (s, d) → section_ok (s, f d)) →
  model_ok (update_section kernels k s f).
Proof.
  intros [Hnd Hall] Hs Hf. unfold update_section, section_at.
  split; [by apply dict_set_NoDup|].
  apply dict_set_Forall; [done|].
  set (sections := default [] (Dict.get k kernels)).
  assert (NoDup (Dict.keys sections) ∧ Forall section_ok sections) as [Hsn Hsa].
  { subst sections. destruct (Dict.get k kernels) as [secs|] eqn:Hget; simpl.
    - by destruct (dict_Forall_get _ _ _ _ Hall Hget) as (_ & ? & ?).
    - split; constructor. }
  split; [apply dict_set_nonempty|]. split; [by apply dict_set_NoDup|].
  apply dict_set_Forall; [done|]. apply Hf.
  destruct (Dict.get s sections) as [d|] eqn:Hget; simpl; [right|by left].
  by apply (dict_Forall_get _ _ _ _ Hsa Hget).
Qed.

Lemma set_metric_ok kernels k s m :
  model_ok kernels → s ≠ "" → model_ok (set_metric kernels k s (metric_Name m) m).
Proof.
  intros Hok Hs. rewrite set_metric_update. apply update_section_ok; [done..|].
  intros d Hd.
  assert (NoDup (Dict.keys (Metrics d))
          ∧ Forall (λ nm : string * Metric, metric_Name nm.2 = nm.1) (Metrics d)
          ∧ Markdown d = None) as (Hnd & Hnames & Hmd).
  { destruct Hd as [->|(_ & _ & ? & ? & ?)]; [|done]. repeat split; constructor. }
  split; [done|]. split; [left; apply dict_set_nonempty|].
  split; [by apply dict_set_NoDup|]. split; [by apply dict_set_Forall|done].
Qed.

Lemma append_rule_ok kernels k s r :
  model_ok kernels → s ≠ "" → model_ok (append_rule kernels k s r).
Proof.
  intros Hok Hs. rewrite append_rule_update. apply update_section_ok; [done..|].
  intros d Hd.
  assert (NoDup (Dict.keys (Metrics d))
          ∧ Forall (λ nm : string * Metric, metric_Name nm.2 = nm.1) (Metrics d)
          ∧ Markdown d = None) as (Hnd & Hnames & Hmd).
  { destruct Hd as [->|(_ & _ & ? & ? & ?)]; [|done]. repeat split; constructor. }
  split; [done|]. split; [right; simpl; by destruct (Rules d)|done].
Qed.

Lemma apply_entry_ok kernels entry :
  model_ok kernels →
  (∀ e, entry = Some e → entry_section e ≠ "") →
  model_ok (apply_entry kernels entry).
Proof.
  intros Hok Hs. destruct entry as [e|]; [|done]. specialize (Hs e eq_refl).
  unfold apply_entry.
  destruct (entry_metric e) as [m|], (entry_rule e) as [r|];
    auto using set_metric_ok, append_rule_ok.
Qed.

Lemma read_row_section row e : read_row row = Ok (Some e) → entry_section e ≠ "".
Proof.
  unfold read_row. intros H.
  destruct (getitem row "Kernel Name") as [kn|]; [|done]. rewrite bind_Ok in H.
  destruct (extract_kernel_name_cell kn) as [k|]; [|done]. rewrite bind_Ok in H.
  destruct (getitem row "Section Name") as [sn|]; [|done]. rewrite !bind_Ok in H.
  destruct (section_mappings_get sn sn) as [[|c s]|]; [done| |done].
  destruct (getitem_strip row "Metric Name") as [mn|]; [|done]. rewrite bind_Ok in H.
  match type of H with (?m ≫= _) = _ => destruct m as [om|] end; [|done].
  rewrite bind_Ok in H.
  destruct (getitem_strip row "Rule Name") as [rn|]; [|done]. rewrite bind_Ok in H.
  match type of H with (?m ≫= _) = _ => destruct m as [or|] end; [|done].
  rewrite bind_Ok in H. by injection H as <-.
Qed.

Lemma mapM_Ok_Forall2 {A B} (f : A → result B) l bs :
  mapM f l = Ok bs → Forall2 (λ a b, f a = Ok b) l bs.
Proof.
  revert bs. induction l as [|a l IH]; intros bs; simpl.
  - intros [= <-]. constructor.
  - destruct (f a) as [b|] eqn:Hfa; [|done]. rewrite bind_Ok.
    destruct (mapM f l) as [bs'|]; [|done]. rewrite bind_Ok.
    intros [= <-]. constructor; auto.
Qed.

Lemma fold_apply_entry_ok entries kernels :
  model_ok kernels →
  Forall (λ entry, ∀ e, entry = Some e → entry_section e ≠ "") entries →
  model_ok (fold_left apply_entry entries kernels).
Proof.
  intros Hok Hall. revert kernels Hok.
  induction Hall as [|entry entries He Hall IH]; intros kernels Hok; [done|].
  simpl. apply IH. by apply apply_entry_ok.
Qed.

(** Every model the parser returns is well formed. *)
Lemma parse_model_ok rows kernels :
  parse_ncu_csv_data rows = Ok kernels → model_ok kernels.
Proof.
  rewrite parse_as_entries.
  destruct (mapM read_row rows) as [entries|] eqn:Hread; [|done].
  rewrite bind_Ok. intros [= <-].
  apply fold_apply_entry_ok; [split; constructor|].
  apply mapM_Ok_Forall2 in Hread.
  induction Hread as [|row entry rows entries Hrow _ IH]; constructor; [|done].
  intros e ->. by eapply read_row_section.
Qed.

(** ** First-seen order and last-write-wins *)

Lemma filter_all {A} (P : A → Prop) `{∀ x, Decision (P x)} (l : list A) :
  (∀ x, x ∈ l → P x) → filter P l = l.
Proof.
  induction l as [|x l IH]; intros Hall; [done|].
  rewrite filter_cons, decide_True by (apply Hall, list_elem_of_here).
  rewrite IH; [done|]. intros y Hy. by apply Hall, list_elem_of_further.
Qed.

Lemma fold_add_key l ks :
  fold_left add_key l ks = ks ++ filter (λ x, x ∉ ks) (first_occurrences l).
Proof.
  revert ks. induction l as [|x l IH]; intros ks.
  - simpl. by rewrite filter_nil, app_nil_r.
  - cbn [fold_left first_occurrences]. rewrite IH, filter_cons. unfold add_key.
    destruct (decide (x ∈ ks)) as [Hin|Hnin].
    + rewrite decide_False by (by intros ?). f_equal.
      rewrite list_filter_filter. apply list_filter_iff.
      intros y. cbn beta. split; [|tauto]. intros Hy. split; [done|]. by intros ->.
    + rewrite decide_True by done. rewrite <- app_assoc. simpl. do 2 f_equal.
      rewrite list_filter_filter. apply list_filter_iff.
      intros y. cbn beta. rewrite elem_of_app, list_elem_of_singleton. tauto.
Qed.

Lemma fold_add_key_nil l : fold_left add_key l [] = first_occurrences l.
Proof.
  rewrite fold_add_key. simpl. apply filter_all. intros x _. apply not_elem_of_nil.
Qed.

Lemma first_occurrences_elem x l : x ∈ first_occurrences l ↔ x ∈ l.
Proof.
  induction l as [|y l IH]; [done|]. cbn [first_occurrences].
  rewrite !elem_of_cons, list_elem_of_filter, IH.
  destruct (decide (x = y)); tauto.
Qed.

Lemma first_occurrences_NoDup l : NoDup (first_occurrences l).
Proof.
  induction l as [|y l IH]; [constructor|]. cbn [first_occurrences].
  constructor; [|by apply NoDup_filter].
  rewrite list_elem_of_filter. tauto.
Qed.

Lemma keys_fold_put_metric ms d :
  Dict.keys (fold_left put_metric ms d)
  = fold_left add_key (map metric_Name ms) (Dict.keys d).
Proof.
  revert d. induction ms as [|m ms IH]; intros d; [done|].
  cbn [fold_left map]. rewrite IH. f_equal. apply dict_keys_set.
Qed.

Lemma get_fold_put_metric ms d n :
  Dict.get n (fold_left put_metric ms d)
  = match last_named n ms with
    | Some m => Some m
    | None => Dict.get n d
    end.
Proof.
  unfold last_named. revert d. induction ms as [|m ms IH]; intros d; [done|].
  cbn [fold_left]. rewrite IH, filter_cons.
  destruct (decide (metric_Name m = n)) as [<-|Hne].
  - rewrite last_cons. unfold put_metric. rewrite dict_get_set_eq.
    by destruct (last (filter _ ms)).
  - unfold put_metric. by rewrite dict_get_set_ne.
Qed.

(** ** What the parser stores *)

Lemma entries_at_cons k s entry entries :
  entries_at k s (entry :: entries)
  = match entry with
    | Some e =>
        if decide (entry_kernel e = k ∧ entry_section e = s)
        then e :: entries_at k s entries else entries_at k s entries
    | None => entries_at k s entries
    end.
Proof.
  unfold entries_at. destruct entry as [e|]; [|done].
  change (omap id (Some e :: entries)) with (e :: omap id entries).
  by rewrite filter_cons.
Qed.

Lemma data_of_apply_entry kernels entry k s :
  data_of (apply_entry kernels entry) k s
  = match entry with
    | Some e =>
        if decide (entry_kernel e = k ∧ entry_section e = s) then
          let d1 := match entry_metric e with
                    | Some m => with_metric (metric_Name m) m (data_of kernels k s)
                    | None => data_of kernels k s
                    end in
          match entry_rule e with
          | Some r => with_rule r d1
          | None => d1
          end
        else data_of kernels k s
    | None => data_of kernels k s
    end.
Proof.
  destruct entry as [e|]; [|done]. unfold apply_entry.
  rewrite ?set_metric_update, ?append_rule_update.
  destruct (decide (entry_kernel e = k ∧ entry_section e = s)) as [[<- <-]|Hne].
  - destruct (entry_metric e), (entry_rule e);
      rewrite ?append_rule_update, ?set_metric_update, ?data_of_update_eq; done.
  - assert ((entry_kernel e, entry_section e) ≠ (k, s)) by (intros [= ??]; tauto).
    destruct (entry_metric e), (entry_rule e);
      rewrite ?append_rule_update, ?set_metric_update, ?data_of_update_ne by done;
      done.
Qed.

Lemma omap_cons_match {A B} (f : A → option B) x l :
  omap f (x :: l) = match f x with Some y => y :: omap f l | None => omap f l end.
Proof. reflexivity. Qed.

Lemma rules_of_fold entries kernels k s :
  Rules (data_of (fold_left apply_entry entries kernels) k s)
  = Rules (data_of kernels k s) ++ rules_at k s entries.
Proof.
  unfold rules_at. revert kernels.
  induction entries as [|entry entries IH]; intros kernels.
  - by rewrite app_nil_r.
  - cbn [fold_left]. rewrite IH, data_of_apply_entry, entries_at_cons.
    destruct entry as [e|]; [|done].
    destruct (decide (entry_kernel e = k ∧ entry_section e = s)); [|done].
    rewrite omap_cons_match. cbn zeta.
    destruct (entry_metric e), (entry_rule e); simpl; by rewrite <- ?app_assoc.
Qed.

Lemma metrics_of_fold entries kernels k s :
  Metrics (data_of (fold_left apply_entry entries kernels) k s)
  = fold_left put_metric (metrics_at k s entries) (Metrics (data_of kernels k s)).
Proof.
  unfold metrics_at. revert kernels.
  induction entries as [|entry entries IH]; intros kernels; [done|].
  cbn [fold_left]. rewrite IH, data_of_apply_entry, entries_at_cons.
  destruct entry as [e|]; [|done].
  destruct (decide (entry_kernel e = k ∧ entry_section e = s)); [|done].
  rewrite omap_cons_match. cbn zeta.
  destruct (entry_metric e), (entry_rule e); done.
Qed.

Lemma data_of_nil k s : data_of [] k s = new_section.
Proof. reflexivity. Qed.

(** X17.  Rules are kept in row order, one per rule-bearing row, duplicates
    included. *)
Theorem parse_rules_in_row_order (rows : list Row) (kernels : Kernels) :
  parse_ncu_csv_data rows = Ok kernels →
  ∃ entries, mapM read_row rows = Ok entries
    ∧ ∀ k s, Rules (data_of kernels k s) = rules_at k s entries.
Proof.
  rewrite parse_as_entries.
  destruct (mapM read_row rows) as [entries|]; [|done].
  rewrite bind_Ok. intros [= <-]. exists entries. split; [done|].
  intros k s. by rewrite rules_of_fold, data_of_nil.
Qed.

Lemma parse_rules_in_row_order_witness :
  ∃ entries, mapM read_row sample_rows = Ok entries
    ∧ ∀ k s, Rules (data_of sample_model k s) = rules_at k s entries.
Proof. apply parse_rules_in_row_order. vm_compute. reflexivity. Defined.

(** X18.  Metrics are kept under their names: in first-seen order, and with the
    value of the last row that bears the name. *)
Theorem parse_metrics_first_seen_last_wins (rows : list Row) (kernels : Kernels) :
  parse_ncu_csv_data rows = Ok kernels →
  ∃ entries, mapM read_row rows = Ok entries
    ∧ ∀ k s,
        Dict.keys (Metrics (data_of kernels k s))
        = first_occurrences (map metric_Name (metrics_at k s entries))
        ∧ ∀ name, Dict.get name (Metrics (data_of kernels k s))
                  = last_named name (metrics_at k s entries).
Proof.
  rewrite parse_as_entries.
  destruct (mapM read_row rows) as [entries|]; [|done].
  rewrite bind_Ok. intros [= <-]. exists entries. split; [done|].
  intros k s. rewrite metrics_of_fold, data_of_nil. split.
  - by rewrite keys_fold_put_metric, fold_add_key_nil.
  - intros name. rewrite get_fold_put_metric.
    by destruct (last_named name (metrics_at k s entries)).
Qed.

Lemma parse_metrics_first_seen_last_wins_witness :
  ∃ entries, mapM read_row sample_rows = Ok entries
    ∧ ∀ k s,
        Dict.keys (Metrics (data_of sample_model k s))
        = first_occurrences (map metric_Name (metrics_at k s entries))
        ∧ ∀ name, Dict.get name (Metrics (data_of sample_model k s))
                  = last_named name (metrics_at k s entries).
Proof. apply parse_metrics_first_seen_last_wins. vm_compute. reflexivity. Defined.

(** ** Discovery order of kernels and sections *)

Lemma add_key_idemp ks k : add_key (add_key ks k) k = add_key ks k.
Proof.
  unfold add_key. destruct (decide (k ∈ ks)) as [Hin|Hnin].
  - by rewrite decide_True.
  - rewrite decide_True; [done|]. apply elem_of_app. right. apply list_elem_of_here.
Qed.

Lemma written_cons entry entries :
  written (entry :: entries)
  = match entry with
    | Some e => if writes e then e :: written entries else written entries
    | None => written entries
    end.
Proof.
  unfold written. destruct entry as [e|]; [|done].
  change (omap id (Some e :: entries)) with (e :: omap id entries).
  rewrite filter_cons. by destruct (writes e).
Qed.

Lemma writes_cases e :
  writes e = match entry_metric e, entry_rule e with
             | None, None => false
             | _, _ => true
             end.
Proof.
  unfold writes. destruct (entry_metric e), (entry_rule e);
    try (apply bool_decide_eq_true; eauto).
  apply bool_decide_eq_false. by intros [[? [=]]|[? [=]]].
Qed.

Lemma keys_update_add kernels k s f :
  Dict.keys (update_section kernels k s f) = add_key (Dict.keys kernels) k.
Proof. apply keys_update. Qed.

Lemma dict_keys_set_add {V} k (v : V) d :
  Dict.keys (Dict.set k v d) = add_key (Dict.keys d) k.
Proof. apply dict_keys_set. Qed.

Lemma keys_apply_entry kernels entry :
  Dict.keys (apply_entry kernels entry)
  = match entry with
    | Some e => if writes e then add_key (Dict.keys kernels) (entry_kernel e)
                else Dict.keys kernels
    | None => Dict.keys kernels
    end.
Proof.
  destruct entry as [e|]; [|done]. rewrite writes_cases. unfold apply_entry.
  destruct (entry_metric e), (entry_rule e);
    rewrite ?append_rule_update, ?set_metric_update, ?keys_update_add,
      ?add_key_idemp; done.
Qed.

Lemma keys_of_fold entries kernels :
  Dict.keys (fold_left apply_entry entries kernels)
  = fold_left add_key (map entry_kernel (written entries)) (Dict.keys kernels).
Proof.
  revert kernels. induction entries as [|entry entries IH]; intros kernels; [done|].
  cbn [fold_left]. rewrite IH, keys_apply_entry, written_cons.
  destruct entry as [e|]; [|done]. by destruct (writes e).
Qed.

Lemma section_keys_apply_entry kernels entry k :
  Dict.keys (sections_of (apply_entry kernels entry) k)
  = match entry with
    | Some e =>
        if decide (entry_kernel e = k) then
          if writes e then add_key (Dict.keys (sections_of kernels k)) (entry_section e)
          else Dict.keys (sections_of kernels k)
        else Dict.keys (sections_of kernels k)
    | None => Dict.keys (sections_of kernels k)
    end.
Proof.
  destruct entry as [e|]; [|done]. rewrite writes_cases. unfold apply_entry.
  destruct (decide (entry_kernel e = k)) as [<-|Hne].
  - destruct (entry_metric e), (entry_rule e);
      rewrite ?append_rule_update, ?set_metric_update, ?sections_of_update_eq,
        ?dict_keys_set_add, ?sections_of_update_eq, ?dict_keys_set_add,
        ?add_key_idemp; done.
  - destruct (entry_metric e), (entry_rule e);
      rewrite ?append_rule_update, ?set_metric_update, ?sections_of_update_ne by done;
      done.
Qed.

Lemma section_keys_of_fold entries kernels k :
  Dict.keys (sections_of (fold_left apply_entry entries kernels) k)
  = fold_left add_key
      (map entry_section (filter (λ e, entry_kernel e = k) (written entries)))
      (Dict.keys (sections_of kernels k)).
Proof.
  revert kernels. induction entries as [|entry entries IH]; intros kernels; [done|].
  cbn [fold_left]. rewrite IH, section_keys_apply_entry, written_cons.
  destruct entry as [e|]; [|done].
  destruct (writes e); [|by destruct (decide (entry_kernel e = k))].
  rewrite filter_cons. by destruct (decide (entry_kernel e = k)).
Qed.

Lemma section_keys_of_entries entries k :
  Dict.keys (sections_of (fold_left apply_entry entries []) k)
  = first_occurrences
      (map entry_section (filter (λ e, entry_kernel e = k) (written entries))).
Proof. by rewrite section_keys_of_fold, fold_add_key_nil. Qed.

(** X19.  Kernels appear in the model in the order their first retained row is
    met, and so do the sections of each kernel. *)
Theorem parse_discovery_order (rows : list Row) (kernels : Kernels) :
  parse_ncu_csv_data rows = Ok kernels →
  ∃ entries, mapM read_row rows = Ok entries
    ∧ Dict.keys kernels = first_occurrences (map entry_kernel (written entries))
    ∧ ∀ k, Dict.keys (sections_of kernels k)
           = first_occurrences
               (map entry_section
                  (filter (λ e, entry_kernel e = k) (written entries))).
Proof.
  rewrite parse_as_entries.
  destruct (mapM read_row rows) as [entries|]; [|done].
  rewrite bind_Ok. intros [= <-]. exists entries. split; [done|]. split.
  - by rewrite keys_of_fold, fold_add_key_nil.
  - intros k. apply section_keys_of_entries.
Qed.

Lemma parse_discovery_order_witness :
  ∃ entries, mapM read_row sample_rows = Ok entries
    ∧ Dict.keys sample_model = first_occurrences (map entry_kernel (written entries))
    ∧ ∀ k, Dict.keys (sections_of sample_model k)
           = first_occurrences
               (map entry_section
                  (filter (λ e, entry_kernel e = k) (written entries))).
Proof. apply parse_discovery_order. vm_compute. reflexivity. Defined.

(** ** Rows: what is read, what is skipped, what fails *)

Lemma getitem_text row column s :
  row !! column = Some (Some s) → getitem row column = Ok (Some s).
Proof. unfold getitem. by intros ->. Qed.

Lemma getitem_strip_text row column s :
  row !! column = Some (Some s) → getitem_strip row column = Ok (Str.strip s).
Proof. unfold getitem_strip. intros H. by rewrite (getitem_text _ _ _ H). Qed.

Lemma getitem_missing row column :
  row !! column = None → getitem row column = Raise (KeyError column).
Proof. unfold getitem. by intros ->. Qed.

Lemma getitem_strip_missing row column :
  row !! column = None → getitem_strip row column = Raise (KeyError column).
Proof. unfold getitem_strip. intros H. by rewrite (getitem_missing _ _ H). Qed.

Lemma SECTION_MAPPINGS_nonempty raw canonical :
  Dict.get raw SECTION_MAPPINGS = Some canonical → canonical ≠ "".
Proof.
  intros Hget.
  assert (Forall (λ kv : string * string, kv.2 ≠ "") SECTION_MAPPINGS) as Hall
    by (repeat constructor; done).
  apply (dict_Forall_get _ _ _ _ Hall Hget).
Qed.

(** A canonical section name is empty only for an empty or absent cell. *)
Lemma section_mappings_get_empty cell :
  (section_mappings_get cell cell = None ∨ section_mappings_get cell cell = Some "")
  ↔ (cell = None ∨ cell = Some "").
Proof.
  unfold section_mappings_get. destruct cell as [raw|]; [|tauto].
  destruct (Dict.get raw SECTION_MAPPINGS) as [canonical|] eqn:Hget.
  - pose proof (SECTION_MAPPINGS_nonempty _ _ Hget).
    split; [intros [?|?]; congruence|].
    intros [?|[= ->]]; [done|]. vm_compute in Hget. done.
  - split; (intros [?|?]; [done|by right]).
Qed.

Lemma read_row_skips row :
  has_text row "Kernel Name" →
  row !! "Section Name" = Some None ∨ row !! "Section Name" = Some (Some "") →
  read_row row = Ok None.
Proof.
  unfold read_row, getitem. intros [name ->] Hs. rewrite !bind_Ok.
  cbn [extract_kernel_name_cell]. rewrite bind_Ok. by destruct Hs as [-> | ->].
Qed.

(** X10.  A row is skipped exactly when its kernel cell is text and its section
    cell is empty or [None]; the other eight columns are not looked at. *)
Theorem read_row_skipped_iff (row : Row) :
  read_row row = Ok None
  ↔ has_text row "Kernel Name"
    ∧ (row !! "Section Name" = Some None ∨ row !! "Section Name" = Some (Some "")).
Proof.
  unfold read_row, getitem, has_text. split.
  - destruct (row !! "Kernel Name") as [[name|]|]; [|done..].
    rewrite !bind_Ok. cbn [extract_kernel_name_cell]. rewrite bind_Ok.
    destruct (row !! "Section Name") as [cell|]; [|done]. rewrite !bind_Ok.
    pose proof (section_mappings_get_empty cell) as Hcell.
    intros H. split; [by eexists|].
    destruct (section_mappings_get cell cell) as [[|c s]|].
    + destruct (proj1 Hcell (or_intror eq_refl)) as [->| ->]; auto.
    + exfalso.
      destruct (getitem_strip row "Metric Name") as [mn|]; [|done].
      rewrite bind_Ok in H.
      match type of H with (?m ≫= _) = _ => destruct m as [om|] end; [|done].
      rewrite bind_Ok in H.
      destruct (getitem_strip row "Rule Name") as [rn|]; [|done].
      rewrite bind_Ok in H.
      match type of H with (?m ≫= _) = _ => destruct m as [or|] end; done.
    + destruct (proj1 Hcell (or_introl eq_refl)) as [->| ->]; auto.
  - intros [Hk Hs]. fold (getitem row "Kernel Name").
    fold (getitem row "Section Name"). by apply read_row_skips.
Qed.

Lemma read_row_skipped_iff_witness :
  read_row (make_row "scale(float*, int)" "" "Orphan" "" "1" "" "" "" "" "") = Ok None.
Proof.
  apply read_row_skipped_iff. split.
  - exists "scale(float*, int)". reflexivity.
  - right. reflexivity.
Defined.



Lemma format_numeric_value_Ok s : ∃ out, format_numeric_value s = Ok out.
Proof.
  rewrite format_numeric_value_unfold.
  destruct (negb (Str.nonempty s)); [by eexists|].
  destruct (Str.contains "," s); [|by eexists].
  destruct (PyFloat.of_str (Str.remove "," s)) as [x|]; [|by eexists].
  destruct (format_parsed_ok (Str.remove "," s) x) as [out ->]. by eexists.
Qed.

Lemma read_row_first_missing (row : Row) :
  (∀ c, row !! c ≠ Some None) →
  match first_missing row (columns_needed row) with
  | Some c => read_row row = Raise (KeyError c)
  | None => ∃ entry, read_row row = Ok entry
  end.
Proof.
  intros Htext. unfold columns_needed, canonical_section, read_row.
  cbn [app first_missing].
  destruct (row !! "Kernel Name") as [[k|]|] eqn:Hk;
    [|by destruct (Htext "Kernel Name")|by rewrite (getitem_missing _ _ Hk)].
  rewrite (getitem_text _ _ _ Hk), bind_Ok. cbn [extract_kernel_name_cell].
  rewrite bind_Ok.
  destruct (row !! "Section Name") as [[s|]|] eqn:Hs;
    [|by destruct (Htext "Section Name")|by rewrite (getitem_missing _ _ Hs)].
  rewrite (getitem_text _ _ _ Hs), !bind_Ok. cbn [mbind option_bind].
  destruct (section_mappings_get (Some s) (Some s)) as [[|c0 s0]|];
    [by eexists| |by eexists].
  cbn [app first_missing]. unfold text_of.
  destruct (row !! "Metric Name") as [[mn|]|] eqn:Hmn;
    [|by destruct (Htext "Metric Name")|by rewrite (getitem_strip_missing _ _ Hmn)].
  rewrite (getitem_strip_text _ _ _ Hmn), bind_Ok.
  assert (∀ (tail : list string) (cont : option Metric → result (option Entry)),
    match first_missing row tail with
    | Some c => ∀ om, cont om = Raise (KeyError c)
    | None => ∀ om, ∃ entry, cont om = Ok entry
    end →
    match first_missing row
            ((if Str.nonempty (Str.strip mn) then ["Metric Unit"; "Metric Value"]
              else []) ++ tail) with
    | Some c =>
        ((if Str.nonempty (Str.strip mn) then
            metric_name ← Ok (Str.strip mn);
            unit ← getitem_strip row "Metric Unit";
            raw ← getitem_strip row "Metric Value";
            value ← format_numeric_value raw;
            Ok (Some (mkMetric metric_name unit value))
          else Ok None) ≫= cont) = Raise (KeyError c)
    | None =>
        ∃ entry,
          ((if Str.nonempty (Str.strip mn) then
              metric_name ← Ok (Str.strip mn);
              unit ← getitem_strip row "Metric Unit";
              raw ← getitem_strip row "Metric Value";
              value ← format_numeric_value raw;
              Ok (Some (mkMetric metric_name unit value))
            else Ok None) ≫= cont) = Ok entry
    end) as Hmetric.
  { intros tail cont Hk'. destruct (Str.nonempty (Str.strip mn)).
    - cbn [app first_missing]. rewrite bind_Ok.
      destruct (row !! "Metric Unit") as [[mu|]|] eqn:Hmu;
        [|by destruct (Htext "Metric Unit")
         |by rewrite (getitem_strip_missing _ _ Hmu)].
      rewrite (getitem_strip_text _ _ _ Hmu), bind_Ok.
      destruct (row !! "Metric Value") as [[mv|]|] eqn:Hmv;
        [|by destruct (Htext "Metric Value")
         |by rewrite (getitem_strip_missing _ _ Hmv)].
      rewrite (getitem_strip_text _ _ _ Hmv), bind_Ok.
      destruct (format_numeric_value_Ok (Str.strip mv)) as [v ->].
      rewrite !bind_Ok. destruct (first_missing row tail); apply Hk'.
    - cbn [app]. rewrite bind_Ok. destruct (first_missing row tail); apply Hk'. }
  apply Hmetric. clear Hmetric. cbn [app first_missing].
  destruct (row !! "Rule Name") as [[rn|]|] eqn:Hrn;
    [|by destruct (Htext "Rule Name")
     |intros om; by rewrite (getitem_strip_missing _ _ Hrn)].
  destruct (Str.nonempty (Str.strip rn)) eqn:Hne.
  - cbn [first_missing].
    destruct (row !! "Rule Type") as [[rt|]|] eqn:Hrt;
      [|by destruct (Htext "Rule Type")
       |intros om; rewrite !(getitem_strip_text _ _ _ Hrn), !bind_Ok, Hne;
        by rewrite (getitem_strip_missing _ _ Hrt)].
    destruct (row !! "Rule Description") as [[rd|]|] eqn:Hrd;
      [|by destruct (Htext "Rule Description")
       |intros om; rewrite !(getitem_strip_text _ _ _ Hrn), !bind_Ok, Hne,
          (getitem_strip_text _ _ _ Hrt), bind_Ok;
        by rewrite (getitem_strip_missing _ _ Hrd)].
    destruct (row !! "Estimated Speedup Type") as [[st|]|] eqn:Hst;
      [|by destruct (Htext "Estimated Speedup Type")
       |intros om; rewrite !(getitem_strip_text _ _ _ Hrn), !bind_Ok, Hne,
          (getitem_strip_text _ _ _ Hrt), bind_Ok,
          (getitem_strip_text _ _ _ Hrd), bind_Ok;
        by rewrite (getitem_strip_missing _ _ Hst)].
    destruct (row !! "Estimated Speedup") as [[sp|]|] eqn:Hsp;
      [|by destruct (Htext "Estimated Speedup")
       |intros om; rewrite !(getitem_strip_text _ _ _ Hrn), !bind_Ok, Hne,
          (getitem_strip_text _ _ _ Hrt), bind_Ok,
          (getitem_strip_text _ _ _ Hrd), bind_Ok,
          (getitem_strip_text _ _ _ Hst), bind_Ok;
        by rewrite (getitem_strip_missing _ _ Hsp)].
    intros om. rewrite !(getitem_strip_text _ _ _ Hrn), !bind_Ok, Hne,
      (getitem_strip_text _ _ _ Hrt), bind_Ok,
      (getitem_strip_text _ _ _ Hrd), bind_Ok,
      (getitem_strip_text _ _ _ Hst), bind_Ok,
      (getitem_strip_text _ _ _ Hsp), !bind_Ok.
    by eexists.
  - cbn [first_missing]. intros om.
    rewrite (getitem_strip_text _ _ _ Hrn), !bind_Ok, Hne, !bind_Ok. by eexists.
Qed.

(** X12.  Which columns a row needs.  For a row without [None] cells, the loop
    body raises [KeyError] for the first column it subscripts that the row
    lacks, and goes through when it lacks none; the columns it does not
    subscript may be absent. *)
Theorem process_row_first_missing (kernels : Kernels) (row : Row) :
  (∀ c, row !! c ≠ Some None) →
  match first_missing row (columns_needed row) with
  | Some c => process_row kernels row = Raise (KeyError c)
  | None => ∃ kernels', process_row kernels row = Ok kernels'
  end.
Proof.
  intros Htext. pose proof (read_row_first_missing row Htext) as Hread.
  rewrite process_row_read_row.
  destruct (first_missing row (columns_needed row)) as [c|].
  - by rewrite Hread.
  - destruct Hread as [entry ->]. rewrite bind_Ok. by eexists.
Qed.

Lemma short_row_text c : short_row !! c ≠ Some None.
Proof.
  unfold short_row. destruct (decide (c = "Kernel Name")) as [->|Hne].
  - by rewrite lookup_singleton.
  - by rewrite lookup_singleton_ne.
Qed.

Lemma process_row_first_missing_witness :
  process_row [] short_row = Raise (KeyError "Section Name").
Proof. exact (process_row_first_missing [] short_row short_row_text). Defined.

Lemma complete_row_reads row : complete_row row → ∃ entry, read_row row = Ok entry.
Proof.
  unfold complete_row, COLUMNS. intros Hc.
  repeat match type of Hc with
         | Forall _ (_ :: _) => apply Forall_cons_1 in Hc as [[? ?] Hc]
         end.
  unfold read_row.
  repeat match goal with
         | H : row !! _ = Some (Some _) |- _ =>
             rewrite ?(getitem_text _ _ _ H), ?(getitem_strip_text _ _ _ H);
             clear H
         end.
  rewrite !bind_Ok. cbn [extract_kernel_name_cell]. rewrite !bind_Ok.
  destruct (section_mappings_get _ _) as [[|c0 s0]|]; [by eexists| |by eexists].
  rewrite !bind_Ok.
  match goal with |- context [format_numeric_value ?v] =>
    destruct (format_numeric_value_Ok v) as [out ->] end.
  repeat (match goal with
          | |- context [if ?b then _ else _] => destruct b
          end; rewrite ?bind_Ok);
    by eexists.
Qed.

Lemma mapM_Ok_iff {A B} (f : A → result B) l :
  (∃ bs, mapM f l = Ok bs) ↔ Forall (λ a, ∃ b, f a = Ok b) l.
Proof.
  induction l as [|a l IH]; simpl.
  - split; [constructor|by eexists].
  - rewrite Forall_cons, <- IH. destruct (f a) as [b|e]; simpl.
    + rewrite ?bind_Ok. destruct (mapM f l) as [bs|e]; simpl.
      * split; [intros _; split; by eexists|by eexists].
      * split; [intros [? [=]]|intros [_ [? [=]]]].
    + split; [intros [? [=]]|intros [[? [=]] _]].
Qed.

Lemma parse_Ok_of_reads rows :
  Forall (λ row, ∃ entry, read_row row = Ok entry) rows →
  ∃ kernels, parse_ncu_csv_data rows = Ok kernels.
Proof.
  intros Hrows. apply mapM_Ok_iff in Hrows as [entries Hread].
  rewrite parse_as_entries, Hread. by eexists.
Qed.

(** A file of one row. *)
Lemma parse_one_row row :
  parse_ncu_csv_data [row] = (entry ← read_row row; Ok (apply_entry [] entry)).
Proof.
  unfold parse_ncu_csv_data. cbn [foldM]. rewrite process_row_read_row.
  by destruct (read_row row).
Qed.

Lemma parse_one_row_Ok row :
  (∃ kernels, parse_ncu_csv_data [row] = Ok kernels)
  ↔ ∃ entry, read_row row = Ok entry.
Proof.
  rewrite parse_one_row. destruct (read_row row) as [entry|e].
  - rewrite bind_Ok. split; by eexists.
  - rewrite bind_Raise. split; intros [? [=]].
Qed.

Lemma parse_one_row_Raise row e :
  parse_ncu_csv_data [row] = Raise e ↔ read_row row = Raise e.
Proof.
  rewrite parse_one_row. destruct (read_row row) as [entry|e'].
  - rewrite bind_Ok. split; intros [=].
  - rewrite bind_Raise. split; by intros [= ->].
Qed.

Lemma parse_pre_failing_row pre row post e :
  Forall (λ r, ∃ entry, read_row r = Ok entry) pre →
  read_row row = Raise e →
  parse_ncu_csv_data (pre ++ row :: post) = Raise e.
Proof.
  intros Hpre Hrow. unfold parse_ncu_csv_data. rewrite foldM_app.
  apply parse_Ok_of_reads in Hpre as [kernels Hpre].
  unfold parse_ncu_csv_data in Hpre. rewrite Hpre, bind_Ok.
  cbn [foldM]. by rewrite process_row_read_row, Hrow.
Qed.

(** X14.  Whether the parser succeeds is decided row by row: it returns a model
    for a file exactly when it returns one for each row of the file taken
    alone, whatever the order of the rows and whatever the other rows. *)
Theorem parse_succeeds_iff (rows : list Row) :
  (∃ kernels, parse_ncu_csv_data rows = Ok kernels)
  ↔ Forall (λ row, ∃ kernels, parse_ncu_csv_data [row] = Ok kernels) rows.
Proof.
  setoid_rewrite parse_one_row_Ok.
  rewrite parse_as_entries, <- mapM_Ok_iff.
  destruct (mapM read_row rows) as [entries|e]; simpl.
  - split; by eexists.
  - split; intros [? [=]].
Qed.

Lemma parse_succeeds_iff_witness :
  Forall (λ row, ∃ kernels, parse_ncu_csv_data [row] = Ok kernels) sample_rows.
Proof. apply parse_succeeds_iff. exists sample_model. vm_compute. reflexivity. Defined.

(** X15.  The first row that does not parse aborts the parse with its own error;
    nothing of the rows before it is returned, and the rows after it are
    not looked at. *)
Theorem parse_first_failing_row (pre post : list Row) (row : Row) (e : exn) :
  Forall (λ r, ∃ kernels, parse_ncu_csv_data [r] = Ok kernels) pre →
  parse_ncu_csv_data [row] = Raise e →
  parse_ncu_csv_data (pre ++ row :: post) = Raise e.
Proof.
  intros Hpre Hrow. apply parse_pre_failing_row.
  - eapply Forall_impl; [exact Hpre|]. intros r. apply parse_one_row_Ok.
  - by apply parse_one_row_Raise.
Qed.

Lemma parse_first_failing_row_witness :
  parse_ncu_csv_data (take 1 sample_rows ++ short_row :: drop 1 sample_rows)
  = Raise (KeyError "Section Name").
Proof.
  apply parse_first_failing_row.
  - repeat constructor. eexists. vm_compute. reflexivity.
  - vm_compute. reflexivity.
Defined.

(** X16.  Rows that have text in all ten columns always parse, into a well-formed
    model. *)
Theorem parse_complete_rows (rows : list Row) :
  Forall complete_row rows →
  ∃ kernels, parse_ncu_csv_data rows = Ok kernels ∧ model_ok kernels.
Proof.
  intros Hrows.
  assert (∃ kernels, parse_ncu_csv_data rows = Ok kernels) as [kernels Hparse].
  { apply parse_Ok_of_reads. eapply Forall_impl; [exact Hrows|].
    intros row. apply complete_row_reads. }
  exists kernels. split; [done|]. by eapply parse_model_ok.
Qed.

Lemma make_row_complete k s mn mu mv rn rt rd st sp :
  complete_row (make_row k s mn mu mv rn rt rd st sp).
Proof. repeat constructor; eexists; reflexivity. Qed.

Lemma sample_rows_complete : Forall complete_row sample_rows.
Proof. repeat (constructor; [apply make_row_complete|]). constructor. Qed.

Lemma parse_complete_rows_witness :
  ∃ kernels, parse_ncu_csv_data sample_rows = Ok kernels ∧ model_ok kernels.
Proof. apply parse_complete_rows. exact sample_rows_complete. Defined.

(** ** Section ordering *)

Lemma filter_ext_elem {A} (P Q : A → Prop)
    `{!∀ x, Decision (P x), !∀ x, Decision (Q x)} (l : list A) :
  (∀ x, x ∈ l → (P x ↔ Q x)) → filter P l = filter Q l.
Proof.
  induction l as [|a l IH]; intros Hext; [done|].
  rewrite !filter_cons.
  rewrite IH by (intros x Hx; by apply Hext, list_elem_of_further).
  destruct (decide (P a)) as [HP|HP].
  - by rewrite decide_True by (by apply (Hext a (list_elem_of_here _ _))).
  - rewrite decide_False; [done|]. intros HQ. apply HP.
    by apply (Hext a (list_elem_of_here _ _)).
Qed.

Lemma omap_ext_elem {A B} (f g : A → option B) (l : list A) :
  (∀ x, x ∈ l → f x = g x) → omap f l = omap g l.
Proof.
  induction l as [|a l IH]; intros Hext; [done|].
  rewrite !omap_cons_match, (Hext a) by apply list_elem_of_here.
  rewrite IH; [done|]. intros x Hx. by apply Hext, list_elem_of_further.
Qed.

Section sorted.
Context {V : Type}.
Implicit Types (d : Dict.t V) (acc : list (string * V)).

Lemma dict_del_perm x v d : Dict.get x d = Some v → d ≡ₚ (x, v) :: Dict.del x d.
Proof.
  induction d as [|[k' v'] d IH]; simpl; [done|].
  destruct (String.eqb_spec x k') as [->|Hne].
  - by intros [= ->].
  - intros H. rewrite (IH H) at 1. apply Permutation_swap.
Qed.

Lemma dict_get_del_ne x y d : x ≠ y → Dict.get y (Dict.del x d) = Dict.get y d.
Proof.
  intros Hne. induction d as [|[k' v'] d IH]; simpl; [done|].
  destruct (String.eqb_spec x k') as [->|Hne'].
  - by destruct (String.eqb_spec y k').
  - simpl. by rewrite IH.
Qed.

Lemma dict_del_filter x d :
  NoDup (Dict.keys d) → Dict.del x d = filter (λ kv, kv.1 ≠ x) d.
Proof.
  unfold Dict.keys.
  induction d as [|[k' v'] d IH]; cbn [Dict.del map fst]; [done|].
  intros [Hk Hnd]%NoDup_cons. rewrite filter_cons. cbn [fst].
  destruct (String.eqb_spec x k') as [->|Hne].
  - rewrite decide_False by (by intros ?). symmetry. apply filter_all.
    intros [k v] Hin Heq. simpl in Heq. subst k.
    apply Hk. by apply (list_elem_of_fmap_2 fst) in Hin.
  - rewrite decide_True by done. by rewrite IH.
Qed.

Lemma dict_del_NoDup x d : NoDup (Dict.keys d) → NoDup (Dict.keys (Dict.del x d)).
Proof.
  intros Hnd. rewrite dict_del_filter by done.
  unfold Dict.keys in *.
  apply (sublist_NoDup (fst <$> filter (λ kv, kv.1 ≠ x) d) (fst <$> d)); [exact Hnd|].
  apply fmap_sublist, sublist_filter.
Qed.

(** The first loop moves sections from [remaining_sections] to
    [sorted_sections] and loses none. *)
Lemma fold_take_section_perm ord acc d :
  let '(acc', d') := fold_left take_section ord (acc, d) in
  acc' ++ d' ≡ₚ acc ++ d.
Proof.
  revert acc d. induction ord as [|x ord IH]; intros acc d; [simpl; reflexivity|].
  cbn [fold_left]. unfold take_section at 2.
  destruct (Dict.get x d) as [v|] eqn:Hget; [|apply IH].
  specialize (IH (acc ++ [(x, v)]) (Dict.del x d)).
  destruct (fold_left take_section ord _) as [acc' d'].
  rewrite IH, <- app_assoc. simpl. by rewrite <- (dict_del_perm _ _ _ Hget).
Qed.

(** X5.  [get_sorted_sections] reorders the sections: none is lost, added or
    changed. *)
Theorem get_sorted_sections_perm (sections : Dict.t V) :
  get_sorted_sections sections ≡ₚ sections.
Proof.
  unfold get_sorted_sections.
  pose proof (fold_take_section_perm section_order [] sections) as H.
  by destruct (fold_left take_section section_order _) as [acc' d'].
Qed.

Lemma fold_take_section_split ord acc d :
  NoDup ord → NoDup (Dict.keys d) →
  fold_left take_section ord (acc, d)
  = (acc ++ omap (λ x, pair x <$> Dict.get x d) ord,
     filter (λ kv, kv.1 ∉ ord) d).
Proof.
  intros Hord. revert acc d.
  induction Hord as [|x ord Hx Hord IH]; intros acc d Hd.
  - simpl. rewrite app_nil_r. f_equal. symmetry. apply filter_all.
    intros kv _. apply not_elem_of_nil.
  - cbn [fold_left]. unfold take_section at 2. rewrite omap_cons_match.
    destruct (Dict.get x d) as [v|] eqn:Hget; cbn [fmap option_fmap option_map].
    + rewrite IH by (by apply dict_del_NoDup). rewrite <- app_assoc.
      f_equal.
      * f_equal. simpl. f_equal. apply omap_ext_elem. intros y Hy.
        rewrite dict_get_del_ne; [done|]. by intros ->.
      * rewrite dict_del_filter, list_filter_filter by done.
        apply list_filter_iff. intros kv. cbn beta. rewrite not_elem_of_cons. tauto.
    + rewrite IH by done. f_equal. apply filter_ext_elem. intros kv Hkv.
      rewrite not_elem_of_cons. split; [|tauto]. intros Hn. split; [|done].
      intros Heq. apply dict_get_None in Hget. apply Hget. rewrite <- Heq.
      by apply (list_elem_of_fmap_2 fst) in Hkv.
Qed.

End sorted.

Lemma section_order_first_occurrences :
  section_order = first_occurrences (Dict.values SECTION_MAPPINGS).
Proof.
  unfold section_order, Dict.fromkeys.
  assert (∀ l (d : Dict.t unit),
    Dict.keys (fold_left (λ d k, Dict.set k () d) l d)
    = fold_left add_key l (Dict.keys d)) as Hkeys.
  { induction l as [|x l IH]; intros d; [done|].
    cbn [fold_left]. by rewrite IH, dict_keys_set_add. }
  by rewrite Hkeys, fold_add_key_nil.
Qed.

Lemma section_order_NoDup : NoDup section_order.
Proof. rewrite section_order_first_occurrences. apply first_occurrences_NoDup. Qed.

Lemma fmap_filter_fst {V} (P : string → Prop) `{!∀ x, Decision (P x)}
    (d : list (string * V)) :
  map fst (filter (λ kv, P kv.1) d) = filter P (map fst d).
Proof.
  induction d as [|[k v] d IH]; [done|].
  cbn [map fst]. rewrite !filter_cons. cbn [fst].
  destruct (decide (P k)); cbn [map fst]; by rewrite IH.
Qed.

Lemma known_sections_names {V} (d : Dict.t V) ord :
  map fst (omap (λ x, pair x <$> Dict.get x d) ord)
  = filter (λ x, x ∈ Dict.keys d) ord.
Proof.
  induction ord as [|x ord IH]; [done|].
  rewrite omap_cons_match, filter_cons.
  destruct (Dict.get x d) as [v|] eqn:Hget; cbn [fmap option_fmap option_map].
  - rewrite decide_True.
    + cbn [map fst]. by rewrite IH.
    + apply dict_get_Some_elem in Hget. by apply (list_elem_of_fmap_2 fst) in Hget.
  - rewrite decide_False; [done|]. by apply dict_get_None.
Qed.

(** With known sections only, nothing is left for the second loop. *)
Lemma sorted_names_of_known {V} (sections : Dict.t V) :
  NoDup (Dict.keys sections) →
  (∀ x, x ∈ Dict.keys sections → x ∈ section_order) →
  map fst (get_sorted_sections sections)
  = filter (λ x, x ∈ Dict.keys sections) section_order.
Proof.
  intros Hnd Hall. unfold get_sorted_sections.
  rewrite fold_take_section_split by (done || apply section_order_NoDup).
  rewrite app_nil_l, map_app, known_sections_names.
  rewrite (filter_ext_elem (λ sd : string * V, sd.1 ∉ section_order) (λ _, False)).
  - assert (∀ l : list (string * V), filter (λ _, False) l = []) as ->; [|by rewrite app_nil_r].
    intros l. induction l as [|a l IH]; [done|].
    rewrite filter_cons. by destruct (decide False).
  - intros [x v] Hx. cbn [fst]. split; [|done]. intros Hnot. apply Hnot, Hall.
    unfold Dict.keys. by apply (list_elem_of_fmap_2 fst) in Hx.
Qed.

(** X6.  The two-tier order: first the sections whose names are canonical names
    of the table, in the table's order; then the others, in the order they
    have in the dictionary. *)
Theorem get_sorted_sections_names {V} (sections : Dict.t V) :
  NoDup (Dict.keys sections) →
  map fst (get_sorted_sections sections)
  = filter (λ x, x ∈ Dict.keys sections) section_order
    ++ filter (λ x, x ∉ section_order) (Dict.keys sections).
Proof.
  intros Hnd. unfold get_sorted_sections.
  rewrite fold_take_section_split by (done || apply section_order_NoDup).
  rewrite app_nil_l, map_app, known_sections_names. f_equal.
  unfold Dict.keys. exact (fmap_filter_fst (λ x, x ∉ section_order) sections).
Qed.

Lemma get_sorted_sections_names_witness :
  map fst (get_sorted_sections
             [("Custom", 1); ("Occupancy", 2); ("Zebra", 3); ("Speed Of Light", 4)])
  = ["Speed Of Light"; "Occupancy"; "Custom"; "Zebra"].
Proof.
  rewrite get_sorted_sections_names.
  - vm_compute. reflexivity.
  - apply (bool_decide_unpack _). vm_compute. reflexivity.
Defined.

(** X7.  When all the sections of a kernel are sections of the table, their
    order depends on which sections there are, not on the order in which
    they were met. *)
Theorem get_sorted_sections_order_independent {V} (s1 s2 : Dict.t V) :
  NoDup (Dict.keys s1) → NoDup (Dict.keys s2) →
  (∀ x, x ∈ Dict.keys s1 ↔ x ∈ Dict.keys s2) →
  (∀ x, x ∈ Dict.keys s1 → x ∈ section_order) →
  map fst (get_sorted_sections s1) = map fst (get_sorted_sections s2).
Proof.
  intros Hn1 Hn2 Hsame Hall.
  rewrite (sorted_names_of_known s1) by done.
  rewrite (sorted_names_of_known s2) by (done || (intros x Hx; by apply Hall, Hsame)).
  by apply list_filter_iff.
Qed.

Lemma get_sorted_sections_order_independent_witness :
  map fst (get_sorted_sections [("Occupancy", 1); ("Speed Of Light", 2)])
  = map fst (get_sorted_sections [("Speed Of Light", 2); ("Occupancy", 1)]).
Proof.
  apply get_sorted_sections_order_independent.
  - apply (bool_decide_unpack _). vm_compute. reflexivity.
  - apply (bool_decide_unpack _). vm_compute. reflexivity.
  - intros x. cbn. rewrite !elem_of_cons. tauto.
  - apply Forall_forall. repeat constructor.
    all: apply (bool_decide_unpack _); vm_compute; reflexivity.
Defined.

(** ** Rendering *)

Section sorted_map.
Context {V W : Type} (g : string → V → W).

Lemma dict_get_map_values x d :
  Dict.get x (map_values g d) = g x <$> Dict.get x d.
Proof.
  induction d as [|[k v] d IH]; [done|]. cbn [map_values map Dict.get fst snd].
  destruct (String.eqb_spec x k) as [->|]; [done|]. apply IH.
Qed.

Lemma dict_del_map_values x d :
  Dict.del x (map_values g d) = map_values g (Dict.del x d).
Proof.
  induction d as [|[k v] d IH]; [done|]. cbn [map_values map Dict.del fst snd].
  destruct (String.eqb_spec x k) as [->|]; [done|].
  cbn [map fst snd]. f_equal. apply IH.
Qed.

Lemma fold_take_section_map_values ord acc d :
  fold_left take_section ord (map_values g acc, map_values g d)
  = (map_values g (fold_left take_section ord (acc, d)).1,
     map_values g (fold_left take_section ord (acc, d)).2).
Proof.
  revert acc d. induction ord as [|x ord IH]; intros acc d; [done|].
  cbn [fold_left]. unfold take_section at 2 4 6.
  rewrite dict_get_map_values.
  destruct (Dict.get x d) as [v|]; cbn [fmap option_fmap option_map]; [|apply IH].
  rewrite dict_del_map_values, <- IH. do 2 f_equal.
  unfold map_values. by rewrite map_app.
Qed.

(** Sorting commutes with a change of the sections' data. *)
Lemma get_sorted_sections_map_values d :
  get_sorted_sections (map_values g d) = map_values g (get_sorted_sections d).
Proof.
  unfold get_sorted_sections.
  change (@nil (string * W)) with (map_values g []).
  rewrite fold_take_section_map_values.
  destruct (fold_left take_section section_order ([], d)) as [acc' d'].
  unfold map_values. by rewrite map_app.
Qed.

End sorted_map.

Lemma add_per_section_markdown_map_values kernels :
  add_per_section_markdown kernels
  = map_values (λ _ sections, map_values add_section_markdown sections) kernels.
Proof.
  unfold add_per_section_markdown, map_values.
  apply map_ext. intros [k sections]. cbn [fst snd]. f_equal.
  apply map_ext. by intros [s data].
Qed.

Lemma mapM_map {A B C} (f : B → result C) (h : A → B) (l : list A) :
  mapM f (map h l) = mapM (λ a, f (h a)) l.
Proof. induction l as [|a l IH]; [done|]. cbn [map mapM]. by rewrite IH. Qed.

Lemma mapM_Ok {A B} (f : A → B) (l : list A) :
  mapM (λ a, Ok (f a)) l = Ok (map f l).
Proof. induction l as [|a l IH]; [done|]. cbn [map mapM]. by rewrite bind_Ok, IH. Qed.

Lemma kernel_lines_block k (sections : Sections) :
  sections ≠ [] →
  kernel_lines k (map_values add_section_markdown sections)
  = Ok (kernel_block (k, sections)).
Proof.
  intros Hne. unfold kernel_lines, kernel_block.
  assert (Dict.nonempty (map_values add_section_markdown sections) = true) as ->
    by (by destruct sections).
  cbn [negb]. rewrite get_sorted_sections_map_values.
  unfold map_values at 1. rewrite mapM_map.
  rewrite (mapM_Ok section_text). by rewrite bind_Ok.
Qed.

Lemma render_lines_blocks (kernels : Kernels) :
  Forall (λ ks : string * Sections, ks.2 ≠ []) kernels →
  render_lines (add_per_section_markdown kernels)
  = Ok (flat_map kernel_block kernels).
Proof.
  rewrite add_per_section_markdown_map_values. unfold map_values at 1.
  induction 1 as [|[k sections] kernels Hne _ IH]; [done|].
  cbn [map render_lines fst snd flat_map] in *.
  rewrite kernel_lines_block by done. by rewrite bind_Ok, IH, bind_Ok.
Qed.

Lemma model_ok_nonempty kernels :
  model_ok kernels → Forall (λ ks : string * Sections, ks.2 ≠ []) kernels.
Proof.
  intros [_ Hall]. eapply Forall_impl; [exact Hall|]. by intros ks [? _].
Qed.

Lemma convert_lines_of_parse rows kernels :
  parse_ncu_csv_data rows = Ok kernels →
  convert_lines rows = Ok (flat_map kernel_block kernels).
Proof.
  intros Hparse. unfold convert_lines. rewrite Hparse, bind_Ok.
  by apply render_lines_blocks, model_ok_nonempty, (parse_model_ok rows).
Qed.

(** X24.  The document, from the model.  Each kernel of the model gives its
    heading, the text of its sections in sorted order and a separator line,
    the last kernel included; the document is these lines joined by line
    feeds.  Rendering adds no failure of its own. *)
Theorem convert_document (rows : list Row) (kernels : Kernels) :
  parse_ncu_csv_data rows = Ok kernels →
  convert_lines rows = Ok (flat_map kernel_block kernels)
  ∧ convert_ncu_csv_to_flat_markdown rows
    = Ok (Str.join nl (flat_map kernel_block kernels)).
Proof.
  intros Hparse. pose proof (convert_lines_of_parse _ _ Hparse) as Hlines.
  split; [done|]. unfold convert_ncu_csv_to_flat_markdown. by rewrite Hlines.
Qed.

Lemma convert_document_witness :
  convert_lines sample_rows = Ok (flat_map kernel_block sample_model)
  ∧ convert_ncu_csv_to_flat_markdown sample_rows
    = Ok (Str.join nl (flat_map kernel_block sample_model)).
Proof. apply convert_document. vm_compute. reflexivity. Defined.

(** X25.  The conversion fails exactly when the parser does, with the parser's
    exception. *)
Theorem convert_fails_iff_parse_fails (rows : list Row) (e : exn) :
  convert_ncu_csv_to_flat_markdown rows = Raise e
  ↔ parse_ncu_csv_data rows = Raise e.
Proof.
  destruct (parse_ncu_csv_data rows) as [kernels|e'] eqn:Hparse.
  - unfold convert_ncu_csv_to_flat_markdown.
    rewrite (convert_lines_of_parse _ _ Hparse), bind_Ok. split; intros [=].
  - unfold convert_ncu_csv_to_flat_markdown, convert_lines.
    rewrite Hparse, !bind_Raise. split; by intros [= ->].
Qed.

Lemma convert_fails_iff_parse_fails_witness :
  convert_ncu_csv_to_flat_markdown [short_row] = Raise (KeyError "Section Name").
Proof. apply convert_fails_iff_parse_fails. vm_compute. reflexivity. Defined.

Lemma last_flat_map_kernel_block kernels :
  kernels ≠ [] → last (flat_map kernel_block kernels) = Some separator.
Proof.
  induction kernels as [|ks kernels IH]; [done|]. intros _.
  cbn [flat_map]. destruct kernels as [|ks' kernels].
  - cbn [flat_map]. rewrite app_nil_r. unfold kernel_block.
    by rewrite !app_assoc, last_snoc.
  - rewrite last_app, IH by done. done.
Qed.

Lemma join_last sep lines x :
  last lines = Some x → ∃ before, Str.join sep lines = before +:+ x.
Proof.
  induction lines as [|l lines IH]; [done|]. destruct lines as [|l' lines].
  - intros [= ->]. by exists "".
  - intros Hlast. destruct (IH Hlast) as [before Hjoin].
    exists (l +:+ sep +:+ before). cbn [Str.join]. cbn [Str.join] in Hjoin.
    by rewrite Hjoin, !append_assoc.
Qed.

(** X26.  A separator line ends the block of every kernel, the last one
    included: the lines of a document that has a kernel end with the
    separator line, and so does the document. *)
Theorem convert_lines_end_with_separator (rows : list Row) (kernels : Kernels) :
  parse_ncu_csv_data rows = Ok kernels → kernels ≠ [] →
  ∃ lines before,
    convert_lines rows = Ok lines ∧ last lines = Some separator
    ∧ convert_ncu_csv_to_flat_markdown rows = Ok (before +:+ separator).
Proof.
  intros Hparse Hne. pose proof (convert_lines_of_parse _ _ Hparse) as Hlines.
  pose proof (last_flat_map_kernel_block kernels Hne) as Hlast.
  destruct (join_last nl _ _ Hlast) as [before Hjoin].
  exists (flat_map kernel_block kernels), before. split; [done|]. split; [done|].
  unfold convert_ncu_csv_to_flat_markdown. by rewrite Hlines, bind_Ok, Hjoin.
Qed.

Lemma convert_lines_end_with_separator_witness :
  ∃ lines before,
    convert_lines sample_rows = Ok lines ∧ last lines = Some separator
    ∧ convert_ncu_csv_to_flat_markdown sample_rows = Ok (before +:+ separator).
Proof.
  apply (convert_lines_end_with_separator sample_rows sample_model).
  - vm_compute. reflexivity.
  - discriminate.
Defined.

(** X28.  Rows with text in all ten columns always convert to a document. *)
Theorem convert_complete_rows (rows : list Row) :
  Forall complete_row rows →
  ∃ document, convert_ncu_csv_to_flat_markdown rows = Ok document.
Proof.
  intros Hrows.
  assert (∃ kernels, parse_ncu_csv_data rows = Ok kernels) as [kernels Hparse].
  { apply parse_Ok_of_reads. eapply Forall_impl; [exact Hrows|].
    intros row. apply complete_row_reads. }
  unfold convert_ncu_csv_to_flat_markdown.
  rewrite (convert_lines_of_parse _ _ Hparse), bind_Ok. by eexists.
Qed.

Lemma convert_complete_rows_witness :
  ∃ document, convert_ncu_csv_to_flat_markdown sample_rows = Ok document.
Proof. apply convert_complete_rows. exact sample_rows_complete. Defined.

Lemma first_char_join sep l rest c :
  first_char l = Some c → first_char (Str.join sep (l :: rest)) = Some c.
Proof.
  destruct l as [|c' l]; [done|]. intros [= ->].
  destruct rest; [done|]. cbn [Str.join]. by rewrite append_cons.
Qed.

Lemma kernel_block_first_chars ks line :
  line ∈ kernel_block ks →
  first_char line = Some "#"%char ∨ first_char line = Some "-"%char.
Proof.
  unfold kernel_block. rewrite !elem_of_app, list_elem_of_singleton, list_elem_of_fmap.
  intros [->|[(sd & -> & _)|Hsep]].
  - by left.
  - left. unfold section_text, section_markdown_lines.
    cbn [app]. by apply first_char_join.
  - apply list_elem_of_singleton in Hsep as ->. by right.
Qed.

(** X27.  The line for a kernel without sections is never written: no line of a
    converted document is that placeholder, for any kernel name. *)
Theorem convert_never_placeholder (rows : list Row) (lines : list string) :
  convert_lines rows = Ok lines →
  ∀ kernel_name, placeholder kernel_name ∉ lines.
Proof.
  intros Hlines kernel_name Hin.
  destruct (parse_ncu_csv_data rows) as [kernels|e] eqn:Hparse.
  - rewrite (convert_lines_of_parse _ _ Hparse) in Hlines. injection Hlines as <-.
    apply list_elem_of_In, in_flat_map in Hin as (ks & _ & Hline).
    apply list_elem_of_In, kernel_block_first_chars in Hline.
    by destruct Hline.
  - unfold convert_lines in Hlines. by rewrite Hparse in Hlines.
Qed.

Lemma convert_never_placeholder_witness :
  convert_lines sample_rows = Ok (flat_map kernel_block sample_model)
  ∧ ∀ kernel_name, placeholder kernel_name ∉ flat_map kernel_block sample_model.
Proof.
  assert (convert_lines sample_rows = Ok (flat_map kernel_block sample_model))
    as Hlines by (vm_compute; reflexivity).
  split; [exact Hlines|]. exact (convert_never_placeholder _ _ Hlines).
Defined.

(** X29.  A missing column aborts the conversion.  When the rows before it parse,
    a row without [None] cells that lacks a column the loop body subscripts
    makes the conversion raise [KeyError] for the first such column; no
    document is returned. *)
Theorem convert_missing_column (pre post : list Row) (row : Row) (c : string) :
  Forall (λ r, ∃ kernels, parse_ncu_csv_data [r] = Ok kernels) pre →
  (∀ c, row !! c ≠ Some None) →
  first_missing row (columns_needed row) = Some c →
  convert_ncu_csv_to_flat_markdown (pre ++ row :: post) = Raise (KeyError c).
Proof.
  intros Hpre Htext Hmiss.
  pose proof (read_row_first_missing row Htext) as Hread. rewrite Hmiss in Hread.
  unfold convert_ncu_csv_to_flat_markdown, convert_lines.
  rewrite (parse_pre_failing_row pre row post (KeyError c)); [done| |done].
  eapply Forall_impl; [exact Hpre|]. intros r. apply parse_one_row_Ok.
Qed.

Lemma convert_missing_column_witness :
  convert_ncu_csv_to_flat_markdown (take 1 sample_rows ++ short_row :: drop 1 sample_rows)
  = Raise (KeyError "Section Name").
Proof.
  apply convert_missing_column.
  - repeat constructor. eexists. vm_compute. reflexivity.
  - exact short_row_text.
  - vm_compute. reflexivity.
Defined.

(** X23.  Rendering a second time changes nothing: the attached text is a function
    of the metrics and rules, which rendering leaves as they are. *)
Theorem add_per_section_markdown_idempotent (kernels : Kernels) :
  add_per_section_markdown (add_per_section_markdown kernels)
  = add_per_section_markdown kernels.
Proof.
  unfold add_per_section_markdown. rewrite map_map. apply map_ext.
  intros [k sections]. f_equal. rewrite map_map. apply map_ext. by intros [s data].
Qed.

(** ** Row order *)

Lemma mapM_Permutation {A B} (f : A → result B) (l l' : list A) bs :
  l ≡ₚ l' → mapM f l = Ok bs → ∃ bs', mapM f l' = Ok bs' ∧ bs ≡ₚ bs'.
Proof.
  intros Hperm. revert bs.
  induction Hperm as [|a l l' _ IH|a b l|l1 l2 l3 _ IH1 _ IH2]; intros bs.
  - intros [= <-]. by exists [].
  - cbn [mapM]. destruct (f a) as [y|]; [|done]. rewrite !bind_Ok.
    destruct (mapM f l) as [ys|] eqn:Hl; [|done]. rewrite bind_Ok.
    intros [= <-]. destruct (IH ys eq_refl) as (ys' & -> & Hys).
    rewrite bind_Ok. exists (y :: ys'). split; [done|]. by constructor.
  - cbn [mapM]. destruct (f b) as [y|]; [|done]. rewrite !bind_Ok.
    destruct (f a) as [x|]; [|done]. rewrite !bind_Ok.
    destruct (mapM f l) as [ys|]; [|done]. rewrite !bind_Ok.
    intros [= <-]. exists (x :: y :: ys). split; [done|]. apply Permutation_swap.
  - intros H1. destruct (IH1 _ H1) as (bs2 & H2 & Hp12).
    destruct (IH2 _ H2) as (bs3 & H3 & Hp23).
    exists bs3. split; [done|]. by etrans.
Qed.

Lemma section_names_elem entries k x :
  x ∈ first_occurrences
        (map entry_section (filter (λ e, entry_kernel e = k) (written entries)))
  ↔ ∃ e, e ∈ omap id entries ∧ writes e = true ∧ entry_kernel e = k
         ∧ entry_section e = x.
Proof.
  rewrite first_occurrences_elem. change (map entry_section ?l) with (entry_section <$> l).
  rewrite list_elem_of_fmap. unfold written. split.
  - intros (e & -> & [Hk [Hw He]%list_elem_of_filter]%list_elem_of_filter). eauto.
  - intros (e & He & Hw & Hk & <-). exists e. split; [done|].
    by rewrite !list_elem_of_filter.
Qed.

(** X22.  The order of a kernel's sections in the document does not depend on the
    order of the rows, as long as all its sections are sections of the
    table: permuted rows parse as well, and give the kernel the same
    sequence of section names. *)
Theorem section_order_independent_of_row_order
    (rows rows' : list Row) (kernels : Kernels) (k : string) :
  rows ≡ₚ rows' →
  parse_ncu_csv_data rows = Ok kernels →
  (∀ s, s ∈ Dict.keys (sections_of kernels k) → s ∈ section_order) →
  ∃ kernels',
    parse_ncu_csv_data rows' = Ok kernels'
    ∧ map fst (get_sorted_sections (sections_of kernels' k))
      = map fst (get_sorted_sections (sections_of kernels k)).
Proof.
  intros Hperm Hparse Htable. rewrite parse_as_entries in Hparse.
  destruct (mapM read_row rows) as [entries|] eqn:Hread; [|done].
  rewrite bind_Ok in Hparse. injection Hparse as <-.
  pose proof (section_keys_of_entries entries k) as Hsec.
  destruct (mapM_Permutation _ _ _ _ Hperm Hread) as (entries' & Hread' & Hentries).
  assert (parse_ncu_csv_data rows' = Ok (fold_left apply_entry entries' []))
    as Hparse' by (by rewrite parse_as_entries, Hread').
  eexists. split; [exact Hparse'|].
  pose proof (section_keys_of_entries entries' k) as Hsec'.
  assert (∀ x, x ∈ Dict.keys (sections_of (fold_left apply_entry entries' []) k)
               ↔ x ∈ Dict.keys (sections_of (fold_left apply_entry entries []) k))
    as Hsame.
  { intros x. rewrite Hsec, Hsec', !section_names_elem.
    assert (omap id entries ≡ₚ omap id entries') as Hp by (by rewrite Hentries).
    split; intros (e & He & ?); exists e; (split; [|done]).
    - by rewrite Hp.
    - by rewrite <- Hp. }
  rewrite !sorted_names_of_known.
  - by apply list_filter_iff.
  - rewrite Hsec. apply first_occurrences_NoDup.
  - done.
  - rewrite Hsec'. apply first_occurrences_NoDup.
  - intros x Hx. by apply Htable, Hsame.
Qed.

Lemma section_order_independent_of_row_order_witness :
  ∃ kernels',
    parse_ncu_csv_data (rev sample_rows) = Ok kernels'
    ∧ map fst (get_sorted_sections (sections_of kernels' "reduce"))
      = map fst (get_sorted_sections (sections_of sample_model "reduce")).
Proof.
  apply (section_order_independent_of_row_order sample_rows).
  - apply Permutation_rev.
  - vm_compute. reflexivity.
  - apply Forall_forall. repeat constructor.
    all: apply (bool_decide_unpack _); vm_compute; reflexivity.
Defined.

(** ** The model the parser returns *)

(** X20.  No kernel of the model is without sections, and no section without
    content: each holds a metric or a rule. *)
Theorem parse_nothing_empty (rows : list Row) (kernels : Kernels) :
  parse_ncu_csv_data rows = Ok kernels →
  ∀ k sections, (k, sections) ∈ kernels →
    sections ≠ []
    ∧ ∀ s data, (s, data) ∈ sections → Metrics data ≠ [] ∨ Rules data ≠ [].
Proof.
  intros Hparse k sections Hk.
  destruct (parse_model_ok _ _ Hparse) as [_ Hall].
  rewrite Forall_forall in Hall. destruct (Hall _ Hk) as (Hne & _ & Hsec).
  split; [done|]. intros s data Hs.
  rewrite Forall_forall in Hsec. by destruct (Hsec _ Hs) as (_ & ? & _).
Qed.

Lemma parse_nothing_empty_witness :
  parse_ncu_csv_data sample_rows = Ok sample_model
  ∧ ∀ k sections, (k, sections) ∈ sample_model →
      sections ≠ []
      ∧ ∀ s data, (s, data) ∈ sections → Metrics data ≠ [] ∨ Rules data ≠ [].
Proof.
  assert (parse_ncu_csv_data sample_rows = Ok sample_model) as Hparse
    by (vm_compute; reflexivity).
  split; [exact Hparse|]. exact (parse_nothing_empty sample_rows sample_model Hparse).
Defined.

(** X21.  Names are keys: no two kernels, no two sections of a kernel and no two
    metrics of a section share a name; a section name is never empty; and a
    metric is stored under its own name. *)
Theorem parse_names_unique (rows : list Row) (kernels : Kernels) :
  parse_ncu_csv_data rows = Ok kernels →
  NoDup (Dict.keys kernels)
  ∧ ∀ k sections, (k, sections) ∈ kernels →
      NoDup (Dict.keys sections)
      ∧ ∀ s data, (s, data) ∈ sections →
          s ≠ ""
          ∧ NoDup (Dict.keys (Metrics data))
          ∧ ∀ name metric, (name, metric) ∈ Metrics data → metric_Name metric = name.
Proof.
  intros Hparse. destruct (parse_model_ok _ _ Hparse) as [Hnd Hall].
  split; [done|]. intros k sections Hk.
  rewrite Forall_forall in Hall. destruct (Hall _ Hk) as (_ & Hsn & Hsec).
  split; [done|]. intros s data Hs.
  rewrite Forall_forall in Hsec. destruct (Hsec _ Hs) as (Hs0 & _ & Hmn & Hnames & _).
  split; [done|]. split; [done|]. intros name metric Hm.
  rewrite Forall_forall in Hnames. apply (Hnames _ Hm).
Qed.

Lemma parse_names_unique_witness :
  NoDup (Dict.keys sample_model)
  ∧ ∀ k sections, (k, sections) ∈ sample_model →
      NoDup (Dict.keys sections)
      ∧ ∀ s data, (s, data) ∈ sections →
          s ≠ ""
          ∧ NoDup (Dict.keys (Metrics data))
          ∧ ∀ name metric, (name, metric) ∈ Metrics data → metric_Name metric = name.
Proof. apply (parse_names_unique sample_rows). vm_compute. reflexivity. Defined.

(** ** Short records *)

Lemma read_row_None_cells (row : Row) :
  (row !! "Kernel Name" = Some None → read_row row = Raise TypeError)
  ∧ (has_text row "Kernel Name" →
     (∃ s, row !! "Section Name" = Some (Some s) ∧ s ≠ "") →
     row !! "Metric Name" = Some None →
     read_row row = Raise AttributeError).
Proof.
  unfold read_row, getitem_strip, getitem. split.
  - by intros ->.
  - intros [name ->] (s & -> & Hs) ->. rewrite !bind_Ok.
    cbn [extract_kernel_name_cell]. rewrite !bind_Ok.
    pose proof (section_mappings_get_empty (Some s)) as Hempty.
    destruct (section_mappings_get (Some s) (Some s)) as [[|c0 s0]|]; [| done |].
    + destruct (proj1 Hempty (or_intror eq_refl)) as [?|[= ->]]; done.
    + destruct (proj1 Hempty (or_introl eq_refl)) as [?|[= ->]]; done.
Qed.

(** X13.  A record shorter than the header leaves [None] in the columns it does
    not reach.  [None] as kernel name makes the loop body raise [TypeError];
    [None] as metric name, in a row with a section, makes it raise
    [AttributeError]. *)
Theorem process_row_None_cells (kernels : Kernels) (row : Row) :
  (row !! "Kernel Name" = Some None → process_row kernels row = Raise TypeError)
  ∧ (has_text row "Kernel Name" →
     (∃ s, row !! "Section Name" = Some (Some s) ∧ s ≠ "") →
     row !! "Metric Name" = Some None →
     process_row kernels row = Raise AttributeError).
Proof.
  rewrite process_row_read_row.
  destruct (read_row_None_cells row) as [Hkernel Hmetric]. split.
  - intros H. by rewrite (Hkernel H).
  - intros Hk Hs Hm. by rewrite (Hmetric Hk Hs Hm).
Qed.

Lemma process_row_None_cells_witness :
  process_row [] {[ "Kernel Name" := None ]} = Raise TypeError
  ∧ process_row []
      {[ "Kernel Name" := Some "scale(float*, int)";
         "Section Name" := Some "Occupancy";
         "Metric Name" := None ]}
    = Raise AttributeError.
Proof.
  split.
  - apply process_row_None_cells. reflexivity.
  - apply process_row_None_cells.
    + exists "scale(float*, int)". reflexivity.
    + exists "Occupancy". split; [reflexivity|discriminate].
    + reflexivity.
Defined.

(** ** Canonical section names *)

(** X8.  Canonical names are stable, and known to the ordering: the canonical
    name of a canonical name is itself, and the canonical name of every label
    of the table is in the canonical order. *)
Theorem canonical_names_stable (raw canonical : string) :
  section_mappings_get (Some raw) (Some raw) = Some canonical →
  section_mappings_get (Some canonical) (Some canonical) = Some canonical
  ∧ (Dict.get raw SECTION_MAPPINGS = Some canonical → canonical ∈ section_order).
Proof.
  unfold section_mappings_get. intros Hc. split.
  - assert (Forall (λ kv : string * string,
              default kv.2 (Dict.get kv.2 SECTION_MAPPINGS) = kv.2)
              SECTION_MAPPINGS) as Hfix by (repeat constructor).
    destruct (Dict.get raw SECTION_MAPPINGS) as [c|] eqn:Hget.
    + injection Hc as ->.
      pose proof (dict_Forall_get _ _ _ _ Hfix Hget) as Hself. cbn [snd] in Hself.
      destruct (Dict.get canonical SECTION_MAPPINGS); simpl in Hself; by subst.
    + injection Hc as <-. by rewrite Hget.
  - intros Hget. rewrite section_order_first_occurrences, first_occurrences_elem.
    apply dict_get_Some_elem in Hget.
    by apply (list_elem_of_fmap_2 snd) in Hget.
Qed.

Lemma canonical_names_stable_witness :
  section_mappings_get (Some "Speed Of Light") (Some "Speed Of Light")
  = Some "Speed Of Light"
  ∧ (Dict.get "SpeedOfLight" SECTION_MAPPINGS = Some "Speed Of Light"
     → "Speed Of Light" ∈ section_order).
Proof. apply (canonical_names_stable "SpeedOfLight"). reflexivity. Defined.

(** ** Rule labels *)

Lemma append_inj_r (s1 s2 t : string) : s1 +:+ t = s2 +:+ t → s1 = s2.
Proof.
  revert s2. induction s1 as [|c s1 IH]; intros [|c' s2] H.
  - done.
  - exfalso. change ("" +:+ t) with t in H. apply (f_equal String.length) in H.
    rewrite append_cons in H. simpl in H. rewrite length_append in H. lia.
  - exfalso. change ("" +:+ t) with t in H. apply (f_equal String.length) in H.
    rewrite append_cons in H. simpl in H. rewrite length_append in H. lia.
  - rewrite !append_cons in H. injection H as -> H. f_equal. by apply IH.
Qed.

Lemma format_rule_type_inj (a b : string) :
  format_rule_type a = format_rule_type b → a = b.
Proof.
  unfold format_rule_type.
  destruct (String.eqb_spec a "OPT") as [->|?], (String.eqb_spec b "OPT") as [->|?];
    try done;
    repeat match goal with
           | |- context [String.eqb ?x ?y] =>
               destruct (String.eqb_spec x y) as [->|?]
           end;
    try done;
    try (intros H; exfalso; revert H; rewrite ?append_cons; discriminate).
  rewrite !append_cons. intros [= H].
  change (a +:+ "**" = b +:+ "**") in H. by apply append_inj_r in H.
Qed.

(** X9.  Distinct rule types get distinct labels, so that the label of a rule in
    the document tells its type; the comparison with the three known types
    is case sensitive. *)
Theorem format_rule_type_distinct (a b : string) :
  a ≠ b → format_rule_type a ≠ format_rule_type b.
Proof. intros Hne Heq. apply Hne. by apply format_rule_type_inj. Qed.

Lemma format_rule_type_distinct_witness :
  format_rule_type "OPT" ≠ format_rule_type "opt".
Proof. apply format_rule_type_distinct. discriminate. Defined.

(** ** Base names of base names *)

Lemma rstrip_idemp s : Str.rstrip (Str.rstrip s) = Str.rstrip s.
Proof.
  induction s as [|c s IH]; [done|]. cbn [Str.rstrip].
  destruct (Str.rstrip s) as [|c' r] eqn:Hr.
  - destruct (Str.is_space c) eqn:Hc; [done|]. cbn [Str.rstrip]. by rewrite Hc.
  - cbn [Str.rstrip]. cbn [Str.rstrip] in IH. by rewrite IH.
Qed.

Lemma rstrip_fixed_tail c s :
  Str.rstrip (String c s) = String c s → s = "" ∨ Str.rstrip s = s.
Proof.
  cbn [Str.rstrip]. destruct (Str.rstrip s) as [|c' r] eqn:Hr.
  - destruct (Str.is_space c); [done|]. intros [= <-]. by left.
  - intros [= <-]. by right.
Qed.

Lemma rstrip_lstrip_fixed s : Str.rstrip s = s → Str.rstrip (Str.lstrip s) = Str.lstrip s.
Proof.
  induction s as [|c s IH]; [done|]. intros Hfix. cbn [Str.lstrip].
  destruct (Str.is_space c) eqn:Hc; [|done].
  destruct (rstrip_fixed_tail _ _ Hfix) as [->|Hs]; [done|]. by apply IH.
Qed.

Lemma lstrip_idemp s : Str.lstrip (Str.lstrip s) = Str.lstrip s.
Proof.
  induction s as [|c s IH]; [done|]. cbn [Str.lstrip].
  destruct (Str.is_space c) eqn:Hc; [done|]. cbn [Str.lstrip]. by rewrite Hc.
Qed.

Lemma strip_idemp s : Str.strip (Str.strip s) = Str.strip s.
Proof.
  unfold Str.strip.
  rewrite (rstrip_lstrip_fixed (Str.rstrip s)) by apply rstrip_idemp.
  apply lstrip_idemp.
Qed.

Lemma first_bracket_None s :
  first_bracket s = None ↔ all_chars (λ c, negb (is_bracket c)) s = true.
Proof.
  induction s as [|c s IH]; [done|]. cbn [first_bracket all_chars].
  destruct (is_bracket c); [done|]. cbn [negb andb]. rewrite <- IH.
  by destruct (first_bracket s).
Qed.

Lemma all_chars_lstrip P s : all_chars P s = true → all_chars P (Str.lstrip s) = true.
Proof.
  induction s as [|c s IH]; [done|]. cbn [Str.lstrip]. intros H.
  destruct (Str.is_space c); [|done].
  apply IH. cbn [all_chars] in H. by apply andb_true_iff in H as [_ ?].
Qed.

Lemma all_chars_rstrip P s : all_chars P s = true → all_chars P (Str.rstrip s) = true.
Proof.
  induction s as [|c s IH]; [done|]. cbn [Str.rstrip all_chars].
  intros [Hc Hs]%andb_true_iff. specialize (IH Hs).
  destruct (Str.rstrip s) as [|c' r].
  - destruct (Str.is_space c); [done|]. cbn [all_chars]. by rewrite Hc.
  - cbn [all_chars] in *. by rewrite Hc, IH.
Qed.

Lemma re_not_bracket_star_no_bracket s :
  all_chars (λ c, negb (is_bracket c)) (re_not_bracket_star s) = true.
Proof.
  induction s as [|c s IH]; [done|]. cbn [re_not_bracket_star].
  destruct (is_bracket c) eqn:Hc; [done|]. cbn [all_chars]. by rewrite Hc, IH.
Qed.

(** X4.  The base name of a base name is itself. *)
Theorem extract_kernel_name_idempotent (s : string) :
  extract_kernel_name (extract_kernel_name s) = extract_kernel_name s.
Proof.
  unfold extract_kernel_name at 2 3. unfold re_match_group1.
  destruct (re_not_bracket_star s) as [|c g] eqn:Hg.
  - unfold extract_kernel_name, re_match_group1. by rewrite Hg.
  - assert (first_bracket (Str.strip (String c g)) = None) as Hnone.
    { apply first_bracket_None. unfold Str.strip.
      apply all_chars_lstrip, all_chars_rstrip. rewrite <- Hg.
      apply re_not_bracket_star_no_bracket. }
    unfold extract_kernel_name, re_match_group1.
    rewrite re_not_bracket_star_prefix, Hnone.
    destruct (Str.strip (String c g)) eqn:Hs; [done|].
    rewrite <- Hs. apply strip_idemp.
Qed.
